(** * Claude usage monitor service

    A shallow embedding of [src/services/claudeUsageMonitorService.js]:
    the update pass over all accounts, the five-hour window check, the
    window probe, the interval planner and the start/stop scheduler.

    Conventions of the embedding.
    - The external collaborators (account store, usage fetcher, token
      service, relay) are oracles over an abstract world; a call may return
      a value or throw.
    - Every function of the service is a computation that, from a state,
      yields an outcome (value or exception), the list of observable
      events it emitted in order (collaborator calls, log lines, delays)
      and the next state.
    - Millisecond timestamps are integers ([Z]); a JavaScript number that
      may be [NaN] (the time of an unparseable date) is an [option Z].
      Utilization fractions are binary64 floats, as in the source. *)

From Stdlib Require Import ZArith List String Ascii Bool Lia Floats.
From Stdlib Require Import Permutation.
Import ListNotations.
Local Open Scope string_scope.
Local Open Scope list_scope.
Local Open Scope Z_scope.

Set Implicit Arguments.
Set Warnings "-inexact-float".

(* ================================================================== *)
(** ** JavaScript values used by the service *)

Module JS.

(** A thrown error; the service only ever reads [error.message]. *)
Definition Error := string.

Inductive outcome (A : Type) : Type :=
| Normal (a : A)
| Throw (e : Error).
Arguments Normal {A} a.
Arguments Throw {A} e.

(** [number] restricted to integers and NaN: [None] is NaN. *)
Definition number := option Z.

(** [a > b] on numbers; any comparison with NaN is false. *)
Definition gt (a : number) (b : Z) : bool :=
  match a with Some x => b <? x | None => false end.

(** [a <= b] on numbers; false on NaN. *)
Definition le (a : number) (b : Z) : bool :=
  match a with Some x => x <=? b | None => false end.

(** [Math.round(n / d)] for an integer [n] and a positive integer [d]:
    nearest integer, ties towards plus infinity. *)
Definition round_div (n d : Z) : Z := (2 * n + d) / (2 * d).


(** [s.split(sep)] for a one-character separator. *)
Fixpoint split (sep : ascii) (s : string) : list string :=
  match s with
  | EmptyString => [EmptyString]
  | String c rest =>
      if Ascii.eqb c sep then EmptyString :: split sep rest
      else match split sep rest with
           | [] => [String c EmptyString]
           | w :: ws => String c w :: ws
           end
  end.

(** [arr.includes(x)] on an array of strings. *)
Definition includes (arr : list string) (x : string) : bool :=
  existsb (String.eqb x) arr.

(** White space removed by [trim] (ASCII range). *)
Definition is_space (c : ascii) : bool :=
  let n := nat_of_ascii c in
  (Nat.leb 9 n && Nat.leb n 13 || Nat.eqb n 32)%bool.

(** Truthiness of [s.trim()]: some character is not white space. *)
Fixpoint trim_truthy (s : string) : bool :=
  match s with
  | EmptyString => false
  | String c rest => (negb (is_space c) || trim_truthy rest)%bool
  end.

(** *** binary64 arithmetic *)

Local Open Scope float_scope.

Definition two52 : float := 4503599627370496.

(** [Math.floor] on floats: below 2^52 in magnitude the sum with 2^52
    rounds to an integer, which is corrected downwards if it went up. *)
Definition Math_floor (x : float) : float :=
  if PrimFloat.abs x <? two52 then
    let r := if x <? 0 then (x - two52) + two52 else (x + two52) - two52 in
    if x <? r then r - 1 else r
  else x.

(** [Math.round]: nearest integer, ties towards plus infinity. *)
Definition Math_round (x : float) : float :=
  let f := Math_floor x in
  if 0.5 <=? x - f then f + 1 else f.

(** Truthiness of a number: zero (either sign) and NaN are falsy. *)
Definition truthy_float (x : float) : bool :=
  (negb (x =? 0) && (x =? x))%bool.

(** [x || 0] for a possibly absent number. *)
Definition or_zero (x : option float) : float :=
  match x with
  | Some v => if truthy_float v then v else 0
  | None => 0
  end.

(** [x * 100] where an absent [x] coerces to NaN. *)
Definition times100 (x : option float) : float :=
  match x with
  | Some v => v * 100
  | None => nan
  end.

End JS.
Import JS.

(* ================================================================== *)
(** ** Data model *)

(** The value of a [resets_at] field as the [Date] constructor reads it:
    either text that parses to an instant, or non-empty text that does
    not parse (an Invalid Date). *)
Inductive timestamp : Type :=
| Instant (ms : Z)
| InvalidDate.

(** [new Date(t).getTime()] *)
Definition getTime (t : timestamp) : number :=
  match t with
  | Instant ms => Some ms
  | InvalidDate => None
  end.

(** A usage window.  [resets_at = None] covers every falsy value of the
    field (absent, null, empty string). *)
Record UsageWindow : Type := {
  resets_at : option timestamp;
  utilization : option float
}.

Record UsageSnapshot : Type := {
  five_hour : option UsageWindow;
  seven_day : option UsageWindow
}.

Record Account : Type := {
  id : string;
  name : string;
  isActive : string;
  scopes : option string
}.

Inductive ProxyAgent : Type :=
| NoProxy
| Proxy (url : string).

Record RequestBody : Type := {
  model : string;
  max_tokens : Z;
  messages : list (string * string)
}.

Record Response : Type := {
  statusCode : Z;
  body : string
}.

(** What the probe reads of [JSON.parse(response.body)]: the text [null]
    parses to a value whose [.usage] cannot be read; for any other value
    the two token counts after [|| 0]. *)
Inductive ParsedBody : Type :=
| ParsedNull
| ParsedValue (input_tokens output_tokens : Z).

Inductive WindowType : Type := W5h | W7d.

(** An entry of [resetTimes] in the planner. *)
Record ScheduleEntry : Type := {
  accountName : string;
  resetTime : Z;
  windowType : WindowType
}.

(* ================================================================== *)
(** ** Observable events *)

Inductive Call : Type :=
| CGetAllClaudeAccounts
| CGetClaudeUsageSnapshot (accountId : string)
| CUpdateClaudeUsageSnapshot (accountId : string) (u : UsageSnapshot)
| CFetchOAuthUsage (accountId : string)
| CGetValidAccessToken (accountId : string)
| CGetProxyAgent (accountId : string)
| CMakeClaudeRequest (b : RequestBody) (token : string) (p : ProxyAgent)
    (headers : list (string * string)) (accountId : string).

Inductive Level : Type := LInfo | LWarn | LError | LDebug | LSuccess.

(** One constructor per log statement of the source, with the values it
    interpolates. *)
Inductive Message : Type :=
| MAlreadyRunning
| MStarting
| MStarted
| MNotRunning
| MStopped
| MUpdateStart
| MUpdated (account : string)
| MNoUsageData (account : string)
| MUpdateFailed (account : string) (e : Error)
| MUpdateCompleted (success skipped initialized failed total : Z)
| MUpdateAllFailed (e : Error)
| MNoResetsAt (account : string)
| MInitialized (account : string)
| MNotInitialized (account : string)
| MWindowExpires (account : string) (remainingMinutes : Z)
    (utilizationPct : float) (remainingQuota : float)
| MCheckError (account : string) (e : Error)
| MInitializing (account : string)
| MNoValidToken (account : string)
| MInitSuccess (account : string) (input_tokens output_tokens : Z)
| MWindowState (account : string) (utilizationPct : float) (resets : Z)
| MInitHttpFailed (account : string) (status : Z) (bodyHead : string)
| MInitError (account : string) (e : Error)
| MNextScheduled (nextTime : Z) (minutes : Z)
| MRunError (e : Error)
| MNextCheck (account : string) (w : WindowType) (minutes : Z)
| MNoUpcoming
| MCalcError (e : Error).

Inductive Event : Type :=
| ECall (c : Call)
| ELog (l : Level) (m : Message)
| EDelay (ms : Z).

Definition Trace := list Event.

(* ================================================================== *)
(** ** Computations with exceptions, an event trace and state *)

Section Computation.
Variable S : Type.

Definition M (A : Type) : Type := S -> outcome A * Trace * S.

Definition ret {A : Type} (a : A) : M A :=
  fun s => (Normal a, [], s).

Definition throw {A : Type} (e : Error) : M A :=
  fun s => (Throw e, [], s).

Definition bind {A B : Type} (m : M A) (k : A -> M B) : M B :=
  fun s =>
    match m s with
    | (Normal a, t1, s1) =>
        match k a s1 with
        | (r, t2, s2) => (r, t1 ++ t2, s2)
        end
    | (Throw e, t1, s1) => (Throw e, t1, s1)
    end.

(** [try { m } catch (e) { h e }] *)
Definition try_catch {A : Type} (m : M A) (h : Error -> M A) : M A :=
  fun s =>
    match m s with
    | (Normal a, t1, s1) => (Normal a, t1, s1)
    | (Throw e, t1, s1) =>
        match h e s1 with
        | (r, t2, s2) => (r, t1 ++ t2, s2)
        end
    end.

Definition emit (e : Event) : M unit :=
  fun s => (Normal tt, [e], s).

Definition logger (l : Level) (m : Message) : M unit :=
  emit (ELog l m).

End Computation.

Arguments ret {S A} a.
Arguments throw {S A} e.
Arguments bind {S A B} m k.
Arguments try_catch {S A} m h.
Arguments emit {S} e.
Arguments logger {S} l m.

Declare Scope comp_scope.
Delimit Scope comp_scope with comp.
Notation "x <- m ;; k" := (bind m (fun x => k))
  (at level 61, m at next level, right associativity) : comp_scope.
Notation "m ;; k" := (bind m (fun _ => k))
  (at level 61, right associativity) : comp_scope.
Local Open Scope comp_scope.

(** Projections of a run. *)
Definition result {S A : Type} (r : outcome A * Trace * S) : outcome A :=
  fst (fst r).
Definition events {S A : Type} (r : outcome A * Trace * S) : Trace :=
  snd (fst r).
Definition final {S A : Type} (r : outcome A * Trace * S) : S :=
  snd r.

(* ================================================================== *)
(** ** External collaborators *)

(** The collaborators of the service over a world [World]:
    [redis.getAllClaudeAccounts], the four [claudeAccountService] methods,
    the two [claudeRelayService] methods, [JSON.parse] as the probe reads
    its result, the clock [Date.now()] and the passage of a timer delay. *)
Record Env (World : Type) : Type := {
  getAllClaudeAccounts : World -> outcome (list Account) * World;
  getClaudeUsageSnapshot :
    string -> World -> outcome (option UsageSnapshot) * World;
  updateClaudeUsageSnapshot :
    string -> UsageSnapshot -> World -> outcome unit * World;
  fetchOAuthUsage : string -> World -> outcome (option UsageSnapshot) * World;
  getValidAccessToken : string -> World -> outcome (option string) * World;
  _getProxyAgent : string -> World -> outcome ProxyAgent * World;
  _makeClaudeRequest :
    RequestBody -> string -> ProxyAgent -> list (string * string) -> string ->
    World -> outcome Response * World;
  JSON_parse : string -> outcome ParsedBody;
  Date_now : World -> Z;
  elapse : Z -> World -> World
}.

(** [await f(...)] on a collaborator: the call is recorded, then its
    result is returned or rethrown. *)
Definition await {World A : Type} (c : Call)
    (f : World -> outcome A * World) : M World A :=
  fun w => match f w with (r, w') => (r, [ECall c], w') end.

(** [await new Promise(resolve => setTimeout(resolve, ms))] *)
Definition delay {World : Type} (env : Env World) (ms : Z) : M World unit :=
  fun w => (Normal tt, [EDelay ms], elapse env ms w).

(** [Date.now()] *)
Definition now_ms {World : Type} (env : Env World) : M World Z :=
  fun w => (Normal (Date_now env w), [], w).

(** A pure step that may throw. *)
Definition lift_outcome {S A : Type} (r : outcome A) : M S A :=
  fun s => (r, [], s).

(* ================================================================== *)
(** ** The service *)

Definition BASE_INTERVAL : Z := 20 * 60 * 1000.
Definition AFTER_RESET_MINUTES : Z := 5.
Definition RESET_THRESHOLD_MINUTES : Z := 10.

Record Counters : Type := {
  successCount : Z;
  skipCount : Z;
  initCount : Z;
  failureCount : Z
}.

Definition zeroCounters : Counters :=
  {| successCount := 0; skipCount := 0; initCount := 0; failureCount := 0 |}.

Definition incSuccess (c : Counters) : Counters :=
  {| successCount := successCount c + 1; skipCount := skipCount c;
     initCount := initCount c; failureCount := failureCount c |}.
Definition incSkip (c : Counters) : Counters :=
  {| successCount := successCount c; skipCount := skipCount c + 1;
     initCount := initCount c; failureCount := failureCount c |}.
Definition incInit (c : Counters) : Counters :=
  {| successCount := successCount c; skipCount := skipCount c;
     initCount := initCount c + 1; failureCount := failureCount c |}.
Definition incFailure (c : Counters) : Counters :=
  {| successCount := successCount c; skipCount := skipCount c;
     initCount := initCount c; failureCount := failureCount c + 1 |}.

(** Lines 68-69: the account carries both OAuth scopes. *)
Definition isOAuth (account : Account) : bool :=
  let scopes :=
    match scopes account with
    | Some s => if trim_truthy s then split " "%char s else []
    | None => []
    end in
  (includes scopes "user:profile" && includes scopes "user:inference")%bool.

(** The minimal request of the probe (lines 181-185) and its client
    headers (line 195). *)
Definition requestBody : RequestBody :=
  {| model := "claude-3-haiku-20240307";
     max_tokens := 10;
     messages := [("user", "Hi")] |}.

Definition clientHeaders : list (string * string) :=
  [("user-agent", "claude-relay-service/usage-monitor")].

(** [newUsage?.five_hour?.resets_at] *)
Definition fiveHourResetsAt (newUsage : option UsageSnapshot)
  : option timestamp :=
  match newUsage with
  | Some u =>
      match five_hour u with
      | Some w => resets_at w
      | None => None
      end
  | None => None
  end.

(** [newUsage.five_hour.utilization * 100], read once [resets_at] is known
    to be there. *)
Definition fiveHourUtilizationPct (newUsage : option UsageSnapshot) : float :=
  match newUsage with
  | Some u =>
      match five_hour u with
      | Some w => times100 (utilization w)
      | None => nan
      end
  | None => nan
  end.

(** [date.toISOString()]: throws a RangeError on an Invalid Date. *)
Definition toISOString (t : timestamp) : outcome Z :=
  match getTime t with
  | Some ms => Normal ms
  | None => Throw "Invalid time value"
  end.

(** Reading [parsed.usage] (line 204): a TypeError when [parsed] is null. *)
Definition readUsage (p : ParsedBody) : outcome (Z * Z) :=
  match p with
  | ParsedNull => Throw "Cannot read properties of null (reading 'usage')"
  | ParsedValue i o => Normal (i, o)
  end.

Section Service.
Context {World : Type} (env : Env World).

(** *** Window probe (lines 166-231) *)

Definition triggerBody (account : Account) : M World bool :=
  logger LInfo (MInitializing (name account)) ;;
  accessToken <-
    await (CGetValidAccessToken (id account))
          (getValidAccessToken env (id account)) ;;
  match accessToken with
  | Some token =>
      if String.eqb token "" then
        logger LWarn (MNoValidToken (name account)) ;;
        ret false
      else
        proxyAgent <-
          await (CGetProxyAgent (id account))
                (_getProxyAgent env (id account)) ;;
        response <-
          await (CMakeClaudeRequest requestBody token proxyAgent
                   clientHeaders (id account))
                (_makeClaudeRequest env requestBody token proxyAgent
                   clientHeaders (id account)) ;;
        if statusCode response =? 200 then
          parsed <- lift_outcome (JSON_parse env (body response)) ;;
          tokens <- lift_outcome (readUsage parsed) ;;
          logger LInfo
            (MInitSuccess (name account) (fst tokens) (snd tokens)) ;;
          delay env 2000 ;;
          newUsage <-
            await (CFetchOAuthUsage (id account))
                  (fetchOAuthUsage env (id account)) ;;
          match newUsage, fiveHourResetsAt newUsage with
          | Some u, Some ts =>
              await (CUpdateClaudeUsageSnapshot (id account) u)
                    (updateClaudeUsageSnapshot env (id account) u) ;;
              resets <- lift_outcome (toISOString ts) ;;
              logger LInfo
                (MWindowState (name account)
                   (fiveHourUtilizationPct newUsage) resets) ;;
              ret true
          | _, _ => ret false
          end
        else
          logger LError
            (MInitHttpFailed (name account) (statusCode response)
               (substring 0 200 (body response))) ;;
          ret false
  | None =>
      logger LWarn (MNoValidToken (name account)) ;;
      ret false
  end.

Definition triggerFiveHourInitialization (account : Account)
  : M World bool :=
  try_catch (triggerBody account)
    (fun e =>
       logger LError (MInitError (name account) e) ;;
       ret false).

(** *** Five-hour window check (lines 122-163) *)

Definition checkBody (account : Account) (fiveHourData : UsageWindow)
  : M World bool :=
  match resets_at fiveHourData with
  | None =>
      logger LInfo (MNoResetsAt (name account)) ;;
      initSuccess <- triggerFiveHourInitialization account ;;
      if initSuccess : bool then
        logger LSuccess (MInitialized (name account)) ;;
        ret true
      else
        logger LWarn (MNotInitialized (name account)) ;;
        ret false
  | Some ts =>
      now <- now_ms env ;;
      match getTime ts with
      | Some resetsAt =>
          let remainingMinutes := (resetsAt - now) / (1000 * 60) in
          (if remainingMinutes <=? RESET_THRESHOLD_MINUTES then
             let utilization := or_zero (utilization fiveHourData) in
             let remainingQuota :=
               Math_round ((1 - utilization) * 100)%float in
             logger LInfo
               (MWindowExpires (name account) remainingMinutes
                  (utilization * 100)%float remainingQuota)
           else ret tt) ;;
          ret false
      | None =>
          (* remainingMinutes is NaN and [NaN <= 10] is false *)
          ret false
      end
  end.

Definition checkAndResetFiveHourWindow (account : Account)
    (fiveHourData : UsageWindow) : M World bool :=
  try_catch (checkBody account fiveHourData)
    (fun e =>
       logger LError (MCheckError (name account) e) ;;
       ret false).

(** *** Update pass (lines 50-119) *)

(** The body of the inner [try] for one eligible account (lines 77-100);
    no counter is written before the last call that can throw, so the
    counters seen by the [catch] are those at entry. *)
Definition refreshAccount (account : Account) (c : Counters)
  : M World Counters :=
  usageData <-
    await (CFetchOAuthUsage (id account))
          (fetchOAuthUsage env (id account)) ;;
  match usageData with
  | Some u =>
      await (CUpdateClaudeUsageSnapshot (id account) u)
            (updateClaudeUsageSnapshot env (id account) u) ;;
      c1 <-
        match five_hour u with
        | Some w =>
            needsInit <- checkAndResetFiveHourWindow account w ;;
            ret (if needsInit : bool then incInit c else c)
        | None => ret c
        end ;;
      logger LDebug (MUpdated (name account)) ;;
      ret (incSuccess c1)
  | None =>
      logger LWarn (MNoUsageData (name account)) ;;
      ret (incFailure c)
  end.

(** The inner [try]/[catch] for one eligible account (lines 76-107). *)
Definition tryRefresh (account : Account) (c : Counters)
  : M World Counters :=
  try_catch (refreshAccount account c)
    (fun e =>
       logger LWarn (MUpdateFailed (name account) e) ;;
       ret (incFailure c)).

(** The [for] loop over the accounts (lines 60-111). *)
Fixpoint updateLoop (accounts : list Account) (c : Counters)
  : M World Counters :=
  match accounts with
  | [] => ret c
  | account :: rest =>
      if negb (String.eqb (isActive account) "true") then
        updateLoop rest (incSkip c)
      else if negb (isOAuth account) then
        updateLoop rest (incSkip c)
      else
        c' <- tryRefresh account c ;;
        delay env 1000 ;;
        updateLoop rest c'
  end.

Definition completedMessage (c : Counters) (total : nat) : Message :=
  MUpdateCompleted (successCount c) (skipCount c) (initCount c)
    (failureCount c) (Z.of_nat total).

(** The function has no [return]: its caller receives [undefined]. *)
Definition updateAllAccountsUsage : M World unit :=
  try_catch
    (logger LInfo MUpdateStart ;;
     accounts <- await CGetAllClaudeAccounts (getAllClaudeAccounts env) ;;
     c <- updateLoop accounts zeroCounters ;;
     logger LInfo (completedMessage c (List.length accounts)))
    (fun e => logger LError (MUpdateAllFailed e)).

(** *** Interval planner (lines 265-328) *)

(** Lines 279-290 and 293-303: the entry pushed for one window. *)
Definition windowEntry (account : Account) (now : Z)
    (w : option UsageWindow) (wt : WindowType) : list ScheduleEntry :=
  match w with
  | Some win =>
      match resets_at win with
      | Some ts =>
          let resetTime := getTime ts in
          let triggerTime :=
            option_map (fun t => t + AFTER_RESET_MINUTES * 60 * 1000)
                       resetTime in
          match triggerTime with
          | Some t =>
              if JS.gt triggerTime now then
                [{| accountName := name account;
                    resetTime := t;
                    windowType := wt |}]
              else []
          | None => []
          end
      | None => []
      end
  | None => []
  end.

(** The collecting loop (lines 271-304). *)
Fixpoint collectResetTimes (accounts : list Account) (now : Z)
    (resetTimes : list ScheduleEntry) : M World (list ScheduleEntry) :=
  match accounts with
  | [] => ret resetTimes
  | account :: rest =>
      if negb (String.eqb (isActive account) "true") then
        collectResetTimes rest now resetTimes
      else
        usageSnapshot <-
          await (CGetClaudeUsageSnapshot (id account))
                (getClaudeUsageSnapshot env (id account)) ;;
        match usageSnapshot with
        | None => collectResetTimes rest now resetTimes
        | Some snap =>
            collectResetTimes rest now
              (resetTimes
                 ++ windowEntry account now (five_hour snap) W5h
                 ++ windowEntry account now (seven_day snap) W7d)
        end
  end.

(** [resetTimes.sort((a, b) => a.resetTime - b.resetTime)]: the stable
    ascending order. *)
Fixpoint insertEntry (e : ScheduleEntry) (l : list ScheduleEntry)
  : list ScheduleEntry :=
  match l with
  | [] => [e]
  | x :: xs =>
      if resetTime e <=? resetTime x then e :: x :: xs
      else x :: insertEntry e xs
  end.

Definition sortEntries (l : list ScheduleEntry) : list ScheduleEntry :=
  fold_right insertEntry [] l.

(** Lines 306-323, after the loop. *)
Definition chooseInterval (now : Z) (resetTimes : list ScheduleEntry)
  : M World Z :=
  match sortEntries resetTimes with
  | nearest :: _ =>
      let interval := resetTime nearest - now in
      if interval <? BASE_INTERVAL then
        logger LInfo
          (MNextCheck (accountName nearest) (windowType nearest)
             (round_div interval 60000)) ;;
        ret (Z.max interval 60000)
      else
        logger LInfo MNoUpcoming ;;
        ret BASE_INTERVAL
  | [] =>
      logger LInfo MNoUpcoming ;;
      ret BASE_INTERVAL
  end.

Definition calculateNextInterval : M World Z :=
  try_catch
    (accounts <- await CGetAllClaudeAccounts (getAllClaudeAccounts env) ;;
     now <- now_ms env ;;
     resetTimes <- collectResetTimes accounts now [] ;;
     chooseInterval now resetTimes)
    (fun e =>
       logger LError (MCalcError e) ;;
       ret BASE_INTERVAL).

End Service.

(* ================================================================== *)
(** ** Scheduler state and lifecycle (lines 9-47 and 234-262) *)

(** The fields of the service object together with what the host keeps for
    it: the world of the collaborators, the table of armed timers (handle
    and delay; every callback is [() => this.runAndScheduleNext()]), the
    next fresh timer handle, and the number of [runAndScheduleNext] calls
    that have been started and have not yet run to their end. *)
Record Service (World : Type) : Type := {
  world : World;
  isRunning : bool;
  monitorTimeout : option nat;
  timers : list (nat * Z);
  nextHandle : nat;
  inflight : nat
}.

(** The state built by the constructor (lines 9-15). *)
Definition newService {World : Type} (w : World) : Service World :=
  {| world := w; isRunning := false; monitorTimeout := None;
     timers := []; nextHandle := 0%nat; inflight := 0%nat |}.

Section Scheduler.
Context {World : Type} (env : Env World).

Let St : Type := Service World.

(** A computation on the collaborators' world run inside the service. *)
Definition inWorld {A : Type} (m : M World A) : M St A :=
  fun s =>
    match m (world s) with
    | (r, t, w) =>
        (r, t,
         {| world := w; isRunning := isRunning s;
            monitorTimeout := monitorTimeout s; timers := timers s;
            nextHandle := nextHandle s; inflight := inflight s |})
    end.

Definition getIsRunning : M St bool :=
  fun s => (Normal (isRunning s), [], s).

Definition setIsRunning (b : bool) : M St unit :=
  fun s =>
    (Normal tt, [],
     {| world := world s; isRunning := b;
        monitorTimeout := monitorTimeout s; timers := timers s;
        nextHandle := nextHandle s; inflight := inflight s |}).

Definition getMonitorTimeout : M St (option nat) :=
  fun s => (Normal (monitorTimeout s), [], s).

Definition setMonitorTimeout (h : option nat) : M St unit :=
  fun s =>
    (Normal tt, [],
     {| world := world s; isRunning := isRunning s;
        monitorTimeout := h; timers := timers s;
        nextHandle := nextHandle s; inflight := inflight s |}).

(** [setTimeout(() => this.runAndScheduleNext(), ms)]: arms a new timer
    and returns its handle. *)
Definition setTimeout (ms : Z) : M St nat :=
  fun s =>
    (Normal (nextHandle s), [],
     {| world := world s; isRunning := isRunning s;
        monitorTimeout := monitorTimeout s;
        timers := timers s ++ [(nextHandle s, ms)];
        nextHandle := S (nextHandle s); inflight := inflight s |}).

(** [clearTimeout(h)]: disarms the timer if it is still armed. *)
Definition clearTimeout (h : nat) : M St unit :=
  fun s =>
    (Normal tt, [],
     {| world := world s; isRunning := isRunning s;
        monitorTimeout := monitorTimeout s;
        timers := filter (fun t => negb (Nat.eqb (fst t) h)) (timers s);
        nextHandle := nextHandle s; inflight := inflight s |}).

(** A call of [runAndScheduleNext] whose promise is not awaited: the
    cycle is in flight. *)
Definition spawnCycle : M St unit :=
  fun s =>
    (Normal tt, [],
     {| world := world s; isRunning := isRunning s;
        monitorTimeout := monitorTimeout s; timers := timers s;
        nextHandle := nextHandle s; inflight := S (inflight s) |}).

(** Lines 243-252: the scheduling step after the planner returned. *)
Definition scheduleNext (nextInterval : Z) : M St unit :=
  running <- getIsRunning ;;
  if running : bool then
    h <- setTimeout nextInterval ;;
    setMonitorTimeout (Some h) ;;
    now <- inWorld (now_ms env) ;;
    logger LInfo
      (MNextScheduled (now + nextInterval) (round_div nextInterval 60000))
  else ret tt.

(** Lines 253-261: the [catch] of [runAndScheduleNext]. *)
Definition onCycleError (e : Error) : M St unit :=
  logger LError (MRunError e) ;;
  running <- getIsRunning ;;
  if running : bool then
    h <- setTimeout BASE_INTERVAL ;;
    setMonitorTimeout (Some h)
  else ret tt.

Definition runAndScheduleNext : M St unit :=
  try_catch
    (inWorld (updateAllAccountsUsage env) ;;
     nextInterval <- inWorld (calculateNextInterval env) ;;
     scheduleNext nextInterval)
    onCycleError.

(** Lines 18-31.  [runAndScheduleNext()] is called without [await]:
    [start] returns while the cycle is in flight. *)
Definition start : M St unit :=
  running <- getIsRunning ;;
  if running : bool then
    logger LWarn MAlreadyRunning
  else
    logger LInfo MStarting ;;
    setIsRunning true ;;
    spawnCycle ;;
    logger LSuccess MStarted.

(** Lines 34-47. *)
Definition stop : M St unit :=
  running <- getIsRunning ;;
  if negb running then
    logger LWarn MNotRunning
  else
    h <- getMonitorTimeout ;;
    match h with
    | Some handle =>
        clearTimeout handle ;;
        setMonitorTimeout None
    | None => ret tt
    end ;;
    setIsRunning false ;;
    logger LInfo MStopped.

(** *** The turns of the event loop

    [start] and [stop] are called by the operator; an armed timer fires,
    which starts a cycle; a cycle in flight runs to its end.  The update
    pass and the planner neither read nor write [isRunning] or
    [monitorTimeout], so a cycle's work is placed at the turn where it
    reaches the scheduling step. *)
Inductive Turn : Type :=
| TStart
| TStop
| TFire (h : nat)
| TCycleEnds.

Definition isArmed (h : nat) (s : St) : bool :=
  existsb (fun t => Nat.eqb (fst t) h) (timers s).

(** The timer [h] fires: it leaves the table and its callback starts a
    cycle. *)
Definition fire (h : nat) : M St unit :=
  fun s =>
    if isArmed h s then
      (Normal tt, [],
       {| world := world s; isRunning := isRunning s;
          monitorTimeout := monitorTimeout s;
          timers := filter (fun t => negb (Nat.eqb (fst t) h)) (timers s);
          nextHandle := nextHandle s; inflight := S (inflight s) |})
    else (Normal tt, [], s).

Definition cycleEnds : M St unit :=
  fun s =>
    match inflight s with
    | O => (Normal tt, [], s)
    | S n =>
        runAndScheduleNext
          {| world := world s; isRunning := isRunning s;
             monitorTimeout := monitorTimeout s; timers := timers s;
             nextHandle := nextHandle s; inflight := n |}
    end.

Definition turn (t : Turn) : M St unit :=
  match t with
  | TStart => start
  | TStop => stop
  | TFire h => fire h
  | TCycleEnds => cycleEnds
  end.

Fixpoint turns (ts : list Turn) : M St unit :=
  match ts with
  | [] => ret tt
  | t :: rest => turn t ;; turns rest
  end.

(** Lines 331-338. *)
Definition getStatus (s : St) : bool * Z * Z * Z :=
  (isRunning s, BASE_INTERVAL, AFTER_RESET_MINUTES,
   RESET_THRESHOLD_MINUTES).

End Scheduler.

(** The service state with the collaborators' world replaced. *)
Definition withWorld {World : Type} (s : Service World) (w : World)
  : Service World :=
  {| world := w; isRunning := isRunning s;
     monitorTimeout := monitorTimeout s; timers := timers s;
     nextHandle := nextHandle s; inflight := inflight s |}.

(** The service state after a cycle armed a timer of [ms] milliseconds and
    stored its handle. *)
Definition armedWith {World : Type} (s : Service World) (w : World) (ms : Z)
  : Service World :=
  {| world := w; isRunning := isRunning s;
     monitorTimeout := Some (nextHandle s);
     timers := timers s ++ [(nextHandle s, ms)];
     nextHandle := S (nextHandle s); inflight := inflight s |}.

(** The timer invariant of the specification: at most one timer is armed
    while running, none while stopped. *)
Definition timerInvariant {World : Type} (s : Service World) : Prop :=
  if isRunning s then (List.length (timers s) <= 1)%nat
  else timers s = [].

(** A state in which cycles and timers together are at most one, and an
    armed timer is the one stored in [monitorTimeout] of a running
    service. *)
Definition singleLoop {World : Type} (s : Service World) : Prop :=
  (inflight s + List.length (timers s) <= 1)%nat
  /\ forall h ms, In (h, ms) (timers s) ->
                  monitorTimeout s = Some h /\ isRunning s = true.

(* ================================================================== *)
(** ** Observations on traces *)

Definition countEvents (p : Event -> bool) (tr : Trace) : nat :=
  List.length (filter p tr).

(** Entry of the probe: the first statement of
    [triggerFiveHourInitialization] (line 168). *)
Definition isProbeStart (e : Event) : bool :=
  match e with
  | ELog LInfo (MInitializing _) => true
  | _ => false
  end.

(** The remaining-time line of the window check (lines 150-152). *)
Definition isRemainingTimeLog (e : Event) : bool :=
  match e with
  | ELog _ (MWindowExpires _ _ _ _) => true
  | _ => false
  end.


Definition isCall (e : Event) : bool :=
  match e with
  | ECall _ => true
  | _ => false
  end.

Definition isInterAccountDelay (e : Event) : bool :=
  match e with
  | EDelay ms => ms =? 1000
  | _ => false
  end.

(** The lines of the update pass that accompany each counter. *)
Definition isUpdatedLog (e : Event) : bool :=
  match e with
  | ELog LDebug (MUpdated _) => true
  | _ => false
  end.

Definition isFailureLog (e : Event) : bool :=
  match e with
  | ELog LWarn (MNoUsageData _) => true
  | ELog LWarn (MUpdateFailed _ _) => true
  | _ => false
  end.

Definition isInitializedLog (e : Event) : bool :=
  match e with
  | ELog LSuccess (MInitialized _) => true
  | _ => false
  end.

(** An account the update pass processes rather than skips
    (lines 62 and 71). *)
Definition eligible (account : Account) : bool :=
  (String.eqb (isActive account) "true" && isOAuth account)%bool.

(** Spacing of usage fetches along a trace.  [ready] tells whether a delay
    of at least one second has passed since the last usage fetch (or none
    was made yet); the result is the flag at the end of the trace, or
    [None] if some fetch was made while not ready. *)
Fixpoint spacedFrom (ready : bool) (tr : Trace) : option bool :=
  match tr with
  | [] => Some ready
  | ECall (CFetchOAuthUsage _) :: rest =>
      if ready then spacedFrom false rest else None
  | EDelay ms :: rest => spacedFrom (ready || (1000 <=? ms))%bool rest
  | _ :: rest => spacedFrom ready rest
  end.

(* ================================================================== *)
(** ** The planner in the words of the specification *)

Module PlannerSpec.

(** [triggerTime = resets_at + 5 minutes] for a window that has a
    [resets_at]; a [resets_at] that is no instant yields no time that
    could exceed [now]. *)
Definition triggerTimes (w : option UsageWindow) : list Z :=
  match w with
  | Some win =>
      match resets_at win with
      | Some (Instant t) => [t + 5 * 60 * 1000]
      | _ => []
      end
  | None => []
  end.

(** The trigger times of every active account's snapshot, both window
    types, that lie after [now]. *)
Definition candidates (accounts : list Account)
    (stored : string -> option UsageSnapshot) (now : Z) : list Z :=
  filter (fun t => now <? t)
    (flat_map
       (fun a =>
          if String.eqb (isActive a) "true" then
            match stored (id a) with
            | Some snap =>
                triggerTimes (five_hour snap) ++ triggerTimes (seven_day snap)
            | None => []
            end
          else [])
       accounts).

Definition minimum (t : Z) (ts : list Z) : Z := fold_right Z.min t ts.

Definition nextInterval (accounts : list Account)
    (stored : string -> option UsageSnapshot) (now : Z) : Z :=
  match candidates accounts stored now with
  | [] => 20 * 60 * 1000
  | t :: ts =>
      let triggerTime := minimum t ts in
      if triggerTime - now <? 20 * 60 * 1000
      then Z.max (triggerTime - now) (1 * 60 * 1000)
      else 20 * 60 * 1000
  end.

End PlannerSpec.

(** The entries the planner's loop collects when every read of the store
    answers [stored]. *)
Definition entriesOf (accounts : list Account)
    (stored : string -> option UsageSnapshot) (now : Z)
  : list ScheduleEntry :=
  flat_map
    (fun a =>
       if String.eqb (isActive a) "true" then
         match stored (id a) with
         | Some snap =>
             windowEntry a now (five_hour snap) W5h
               ++ windowEntry a now (seven_day snap) W7d
         | None => []
         end
       else [])
    accounts.

(* ================================================================== *)
(** ** A concrete world *)

Module Demo.

(** A clock in milliseconds and the number of collaborator calls made. *)
Record World : Type := { clock : Z; calls : nat }.

Definition tick (w : World) : World :=
  {| clock := clock w; calls := S (calls w) |}.

Definition w0 : World := {| clock := 1000000; calls := 0 |}.

Definition oauth (n : string) : Account :=
  {| id := n; name := n; isActive := "true";
     scopes := Some "user:profile user:inference" |}.

Definition inactive (n : string) : Account :=
  {| id := n; name := n; isActive := "false";
     scopes := Some "user:profile user:inference" |}.

Definition windowAt (t : Z) : UsageWindow :=
  {| resets_at := Some (Instant t); utilization := Some 0.5%float |}.

Definition dormant : UsageWindow :=
  {| resets_at := None; utilization := None |}.

Definition snapshotAt (t5 t7 : Z) : UsageSnapshot :=
  {| five_hour := Some (windowAt t5); seven_day := Some (windowAt t7) |}.

Definition parse (s : string) : outcome ParsedBody :=
  if String.eqb s "null" then Normal ParsedNull
  else if String.eqb s "" then Throw "Unexpected end of JSON input"
  else Normal (ParsedValue 8 1).

(** Collaborators given by: the listing as a function of the number of
    calls made so far, the fetched usage and the stored snapshot per
    account, the access token, and the response to the probe. *)
Definition mkEnv
    (listing : nat -> outcome (list Account))
    (usage : string -> outcome (option UsageSnapshot))
    (stored : string -> option UsageSnapshot)
    (token : option string)
    (response : Response) : Env World :=
  {| getAllClaudeAccounts := fun w => (listing (calls w), tick w);
     getClaudeUsageSnapshot := fun i w => (Normal (stored i), tick w);
     updateClaudeUsageSnapshot := fun _ _ w => (Normal tt, tick w);
     fetchOAuthUsage := fun i w => (usage i, tick w);
     getValidAccessToken := fun _ w => (Normal token, tick w);
     _getProxyAgent := fun _ w => (Normal NoProxy, tick w);
     _makeClaudeRequest := fun _ _ _ _ _ w => (Normal response, tick w);
     JSON_parse := parse;
     Date_now := clock;
     elapse := fun ms w => {| clock := clock w + ms; calls := calls w |} |}.

Definition ok200 : Response := {| statusCode := 200; body := "{}" |}.

Definition farSnapshot : UsageSnapshot :=
  snapshotAt (1000000 + 3 * 3600000) (1000000 + 100 * 3600000).

(** Three OAuth accounts; the fetch for the second one throws. *)
Definition threeAccounts : list Account :=
  [oauth "acct-1"; oauth "acct-2"; oauth "acct-3"].

Definition envSecondThrows : Env World :=
  mkEnv (fun _ => Normal threeAccounts)
    (fun i => if String.eqb i "acct-2" then Throw "ECONNRESET"
              else Normal (Some farSnapshot))
    (fun _ => Some farSnapshot)
    (Some "token") ok200.

(** No access token can be obtained. *)
Definition envNoToken : Env World :=
  mkEnv (fun _ => Normal [oauth "acct-1"])
    (fun _ => Normal (Some farSnapshot))
    (fun _ => Some farSnapshot)
    None ok200.

(** The probe is answered 200 and the window is then active. *)
Definition envProbeOk : Env World :=
  mkEnv (fun _ => Normal [oauth "acct-1"])
    (fun _ => Normal (Some farSnapshot))
    (fun _ => Some farSnapshot)
    (Some "token") ok200.


(** The listing fails on the first call and succeeds afterwards; the
    stored five-hour window resets three minutes before the clock of
    [w0], so its trigger time is two minutes ahead. *)
Definition nearSnapshot : UsageSnapshot :=
  snapshotAt (1000000 - 180000) (1000000 + 100 * 3600000).

Definition envListingFailsOnce : Env World :=
  mkEnv (fun n => match n with
                  | O => Throw "redis: connection lost"
                  | S _ => Normal [oauth "acct-1"]
                  end)
    (fun _ => Normal (Some nearSnapshot))
    (fun _ => Some nearSnapshot)
    (Some "token") ok200.

(** One skipped account followed by one OAuth account. *)
Definition skippedThenOAuth : list Account :=
  [inactive "acct-0"; oauth "acct-1"].

(** Two accounts that are both skipped: one inactive, one without the
    inference scope. *)
Definition twoSkipped : list Account :=
  [inactive "acct-0";
   {| id := "acct-9"; name := "acct-9"; isActive := "true";
      scopes := Some "user:profile" |}].

(** A running service with no timer armed and no cycle in flight. *)
Definition running : Service World :=
  {| world := w0; isRunning := true; monitorTimeout := None;
     timers := []; nextHandle := 0%nat; inflight := 0%nat |}.

(** A window that resets six minutes after the clock of [w0]. *)
Definition closingWindow : UsageWindow :=
  {| resets_at := Some (Instant (1000000 + 6 * 60 * 1000));
     utilization := Some 0.5%float |}.


End Demo.


(* ================================================================== *)
(** ** The update pass in the words of the specification *)

Module PassSpec.

(** What became of one account in a pass. *)
Inductive Outcome : Type :=
| Skipped
| Refreshed (initialized : bool)
| Failed.

Definition isSkipped (o : Outcome) : bool :=
  match o with Skipped => true | _ => false end.
Definition isRefreshed (o : Outcome) : bool :=
  match o with Refreshed _ => true | _ => false end.
Definition isInitialized (o : Outcome) : bool :=
  match o with Refreshed true => true | _ => false end.
Definition isFailed (o : Outcome) : bool :=
  match o with Failed => true | _ => false end.

Definition countOutcomes (p : Outcome -> bool) (os : list Outcome) : nat :=
  List.length (filter p os).

(** The counter an outcome moves. *)
Definition tally (o : Outcome) (c : Counters) : Counters :=
  match o with
  | Skipped => incSkip c
  | Refreshed initialized =>
      incSuccess (if initialized then incInit c else c)
  | Failed => incFailure c
  end.

Section Collaborators.
Context {World : Type} (env : Env World).

(** The probe confirms an activation: a non-empty token is obtained, the
    egress path is obtained, the request is answered 200 with a body that
    can be read, and the usage re-fetched after the settle delay has its
    five-hour [resets_at] populated with an instant and is persisted.  The
    second component is the world after the collaborators' calls. *)
Definition probeConfirms (account : Account) (w : World) : bool * World :=
  match getValidAccessToken env (id account) w with
  | (Normal (Some token), w1) =>
      if String.eqb token "" then (false, w1)
      else
        match _getProxyAgent env (id account) w1 with
        | (Normal proxyAgent, w2) =>
            match _makeClaudeRequest env requestBody token proxyAgent
                    clientHeaders (id account) w2 with
            | (Normal response, w3) =>
                if statusCode response =? 200 then
                  match JSON_parse env (body response) with
                  | Normal (ParsedValue _ _) =>
                      match fetchOAuthUsage env (id account)
                              (elapse env 2000 w3) with
                      | (Normal (Some u), w4) =>
                          match fiveHourResetsAt (Some u) with
                          | Some ts =>
                              match updateClaudeUsageSnapshot env
                                      (id account) u w4 with
                              | (Normal _, w5) =>
                                  (match ts with
                                   | Instant _ => true
                                   | InvalidDate => false
                                   end, w5)
                              | (Throw _, w5) => (false, w5)
                              end
                          | None => (false, w4)
                          end
                      | (Normal None, w4) => (false, w4)
                      | (Throw _, w4) => (false, w4)
                      end
                  | Normal ParsedNull => (false, w3)
                  | Throw _ => (false, w3)
                  end
                else (false, w3)
            | (Throw _, w3) => (false, w3)
            end
        | (Throw _, w2) => (false, w2)
        end
  | (Normal None, w1) => (false, w1)
  | (Throw _, w1) => (false, w1)
  end.

(** A fetched five-hour window is initialized when it is dormant and the
    probe confirms its activation. *)
Definition windowInitialized (account : Account) (win : UsageWindow)
    (w : World) : bool * World :=
  match resets_at win with
  | None => probeConfirms account w
  | Some _ => (false, w)
  end.

(** An eligible account is refreshed when its usage is fetched and
    persisted, and failed when the fetch throws or returns nothing or the
    snapshot cannot be persisted. *)
Definition accountOutcome (account : Account) (w : World)
  : Outcome * World :=
  match fetchOAuthUsage env (id account) w with
  | (Normal (Some u), w1) =>
      match updateClaudeUsageSnapshot env (id account) u w1 with
      | (Normal _, w2) =>
          match five_hour u with
          | Some win =>
              match windowInitialized account win w2 with
              | (initialized, w3) => (Refreshed initialized, w3)
              end
          | None => (Refreshed false, w2)
          end
      | (Throw _, w2) => (Failed, w2)
      end
  | (Normal None, w1) => (Failed, w1)
  | (Throw _, w1) => (Failed, w1)
  end.

(** The outcomes of the accounts in the order listed; one second passes
    after each eligible account. *)
Fixpoint outcomes (accounts : list Account) (w : World)
  : list Outcome * World :=
  match accounts with
  | [] => ([], w)
  | account :: rest =>
      if eligible account then
        match accountOutcome account w with
        | (o, w1) =>
            match outcomes rest (elapse env 1000 w1) with
            | (os, w2) => (o :: os, w2)
            end
        end
      else
        match outcomes rest w with
        | (os, w2) => (Skipped :: os, w2)
        end
  end.

End Collaborators.

End PassSpec.

(* ================================================================== *)
(** ** Further observations *)

Definition isRequest (e : Event) : bool :=
  match e with
  | ECall (CMakeClaudeRequest _ _ _ _ _) => true
  | _ => false
  end.

Definition isUsageFetch (e : Event) : bool :=
  match e with
  | ECall (CFetchOAuthUsage _) => true
  | _ => false
  end.

Definition isPersist (e : Event) : bool :=
  match e with
  | ECall (CUpdateClaudeUsageSnapshot _ _) => true
  | _ => false
  end.

(** A request event is the probe's request for [account]: the fixed body
    and headers, a non-empty token, the account's id. *)
Definition requestAsBuilt (account : Account) (e : Event) : Prop :=
  forall b token p headers i,
    e = ECall (CMakeClaudeRequest b token p headers i) ->
    b = requestBody /\ headers = clientHeaders /\ token <> ""
    /\ i = id account.

(** A persist event stores, for [account], a snapshot whose five-hour
    [resets_at] is populated. *)
Definition persistConfirmed (account : Account) (e : Event) : Prop :=
  forall i u,
    e = ECall (CUpdateClaudeUsageSnapshot i u) ->
    i = id account /\ fiveHourResetsAt (Some u) <> None.

(** The account a collaborator call is made for, if any. *)
Definition callAccount (e : Event) : option string :=
  match e with
  | ECall (CGetClaudeUsageSnapshot i) => Some i
  | ECall (CUpdateClaudeUsageSnapshot i _) => Some i
  | ECall (CFetchOAuthUsage i) => Some i
  | ECall (CGetValidAccessToken i) => Some i
  | ECall (CGetProxyAgent i) => Some i
  | ECall (CMakeClaudeRequest _ _ _ _ i) => Some i
  | _ => None
  end.

(** An event that is no call, or a call made for the account [i]. *)
Definition concerns (i : string) (e : Event) : bool :=
  match e with
  | ECall CGetAllClaudeAccounts => false
  | ECall _ =>
      match callAccount e with
      | Some j => String.eqb j i
      | None => false
      end
  | _ => true
  end.

(** An event of the planner: a read of the store or a log line. *)
Definition isReadOrLog (e : Event) : bool :=
  match e with
  | ECall CGetAllClaudeAccounts => true
  | ECall (CGetClaudeUsageSnapshot _) => true
  | ELog _ _ => true
  | _ => false
  end.

(** The order of a probe's steps.  The stage counts the steps done: 0 none,
    1 the token asked, 2 the egress path asked, 3 the request sent, 4 the
    settle delay of 2000 ms waited, 5 usage re-fetched, 6 the snapshot
    persisted.  A step is allowed only at the stage just before its own;
    log lines are allowed anywhere; any other call or delay is not. *)
Definition probeStep (stage : nat) (e : Event) : option nat :=
  match e with
  | ELog _ _ => Some stage
  | ECall (CGetValidAccessToken _) =>
      if Nat.eqb stage 0 then Some 1%nat else None
  | ECall (CGetProxyAgent _) =>
      if Nat.eqb stage 1 then Some 2%nat else None
  | ECall (CMakeClaudeRequest _ _ _ _ _) =>
      if Nat.eqb stage 2 then Some 3%nat else None
  | EDelay ms =>
      if (Nat.eqb stage 3 && (ms =? 2000))%bool then Some 4%nat else None
  | ECall (CFetchOAuthUsage _) =>
      if Nat.eqb stage 4 then Some 5%nat else None
  | ECall (CUpdateClaudeUsageSnapshot _ _) =>
      if Nat.eqb stage 5 then Some 6%nat else None
  | ECall _ => None
  end.

(** The stage a trace ends in when every step of it is allowed. *)
Fixpoint probeOrder (stage : nat) (tr : Trace) : option nat :=
  match tr with
  | [] => Some stage
  | e :: rest =>
      match probeStep stage e with
      | Some next => probeOrder next rest
      | None => None
      end
  end.

(** The events of the pass for one eligible account: at most one probe
    request, no more snapshots persisted than fetched, no inter-account
    delay inside, and every call made for this account. *)
Definition accountSegment (account : Account) (seg : Trace) : Prop :=
  (countEvents isRequest seg <= 1)%nat
  /\ (countEvents isPersist seg <= countEvents isUsageFetch seg)%nat
  /\ countEvents isInterAccountDelay seg = 0%nat
  /\ Forall (fun e => concerns (id account) e = true) seg.

(** The character [c] occurs in the string [s]. *)
Fixpoint occurs (c : ascii) (s : string) : Prop :=
  match s with
  | EmptyString => False
  | String d rest => c = d \/ occurs c rest
  end.

(** The states reached from a fresh service by turns of the event loop in
    which [start] is never called on a stopped service while a cycle is
    still in flight. *)
Inductive SafeRun {World : Type} (env : Env World)
  : Service World -> Prop :=
| SafeNew (w : World) : SafeRun env (newService w)
| SafeTurn (s : Service World) (t : Turn) :
    SafeRun env s ->
    (t = TStart -> isRunning s = false -> inflight s = 0%nat) ->
    SafeRun env (final (turn env t s)).

(* ================================================================== *)
(** ** More concrete worlds *)

Module Demo2.
Import Demo.

(** The store cannot be read for the second account. *)
Definition envReadThrows : Env World :=
  {| getAllClaudeAccounts := fun w => (Normal threeAccounts, tick w);
     getClaudeUsageSnapshot :=
       fun i w =>
         if String.eqb i "acct-2" then (Throw "redis: timeout", tick w)
         else (Normal (Some nearSnapshot), tick w);
     updateClaudeUsageSnapshot := fun _ _ w => (Normal tt, tick w);
     fetchOAuthUsage := fun _ w => (Normal (Some farSnapshot), tick w);
     getValidAccessToken := fun _ w => (Normal (Some "token"), tick w);
     _getProxyAgent := fun _ w => (Normal NoProxy, tick w);
     _makeClaudeRequest := fun _ _ _ _ _ w => (Normal ok200, tick w);
     JSON_parse := parse;
     Date_now := clock;
     elapse := fun ms w => {| clock := clock w + ms; calls := calls w |} |}.

(** Two accounts, listed in one order on the first call and in the other
    order afterwards; the first one's five-hour trigger is two minutes
    ahead, the second one's windows reset far in the future. *)
Definition storedByAccount (i : string) : option UsageSnapshot :=
  if String.eqb i "acct-1" then Some nearSnapshot else Some farSnapshot.

Definition envTwoOrders : Env World :=
  mkEnv (fun n => match n with
                  | O => Normal [oauth "acct-1"; oauth "acct-2"]
                  | S _ => Normal [oauth "acct-2"; oauth "acct-1"]
                  end)
    (fun _ => Normal (Some farSnapshot))
    storedByAccount
    (Some "token") ok200.

(** A running service in its steady state: one timer armed, its handle
    stored, no cycle in flight. *)
Definition steady : Service World :=
  {| world := w0; isRunning := true; monitorTimeout := Some 0%nat;
     timers := [(0%nat, 120000)]; nextHandle := 1%nat; inflight := 0%nat |}.

End Demo2.

(* ================================================================== *)
(** * Properties *)

(** Case analysis on the innermost scrutinee of the goal: the answer of
    the next collaborator call or test along the run. *)
Ltac step_match :=
  match goal with
  | |- context [match ?x with _ => _ end] =>
      lazymatch x with
      | context [match _ with _ => _ end] => fail
      | _ => destruct x eqn:?
      end
  end.

Lemma spacedFrom_app (tr1 tr2 : Trace) (ready ready1 : bool) :
  spacedFrom ready tr1 = Some ready1 ->
  spacedFrom ready (tr1 ++ tr2) = spacedFrom ready1 tr2.
Proof.
  revert ready.
  induction tr1 as [|e tr1 IH]; intros ready H.
  - cbn in H. inversion H. reflexivity.
  - cbn [app]. destruct e as [c|l m|ms]; cbn [spacedFrom] in *.
    + destruct c; try (apply IH; exact H).
      destruct ready; [apply IH; exact H|discriminate].
    + apply IH; exact H.
    + apply IH; exact H.
Qed.

Lemma countEvents_app (p : Event -> bool) (tr1 tr2 : Trace) :
  countEvents p (tr1 ++ tr2) = (countEvents p tr1 + countEvents p tr2)%nat.
Proof.
  unfold countEvents. rewrite filter_app, length_app. reflexivity.
Qed.

Section ProbeFacts.
Context {World : Type} (env : Env World).

(** The probe never throws: every exception is caught at line 227. *)
Lemma trigger_returns (account : Account) (w : World) :
  exists b tr w',
    triggerFiveHourInitialization env account w = (Normal b, tr, w').
Proof.
  unfold triggerFiveHourInitialization, triggerBody.
  unfold bind, try_catch, ret, logger, emit, await, delay, lift_outcome.
  repeat step_match; eauto.
Qed.

(** What the trace of the probe contains, whatever the collaborators
    answer: its entry line once, no remaining-time line, and at most one
    request to the provider. *)
Lemma trigger_trace (account : Account) (w : World) :
  let tr := events (triggerFiveHourInitialization env account w) in
  countEvents isProbeStart tr = 1%nat
  /\ countEvents isRemainingTimeLog tr = 0%nat.
Proof.
  unfold triggerFiveHourInitialization, triggerBody.
  unfold bind, try_catch, ret, logger, emit, await, delay, lift_outcome.
  repeat step_match; cbn; auto.
Qed.



End ProbeFacts.

Section WindowCheck.
Context {World : Type} (env : Env World).

(** With [resets_at] absent, the check wraps one run of the probe. *)
Lemma check_absent (account : Account) (fiveHourData : UsageWindow)
    (w w' : World) (b : bool) (tr : Trace)
    (Habsent : resets_at fiveHourData = None)
    (Hrun : triggerFiveHourInitialization env account w
            = (Normal b, tr, w')) :
  checkAndResetFiveHourWindow env account fiveHourData w
  = (Normal b,
     ELog LInfo (MNoResetsAt (name account)) :: tr
       ++ [if b then ELog LSuccess (MInitialized (name account))
           else ELog LWarn (MNotInitialized (name account))],
     w').
Proof.
  unfold checkAndResetFiveHourWindow, checkBody.
  rewrite Habsent.
  unfold bind, try_catch, logger, emit, ret.
  rewrite Hrun. destruct b; cbn; reflexivity.
Qed.

Lemma check_absent_counts (account : Account) (fiveHourData : UsageWindow)
    (w : World) (Habsent : resets_at fiveHourData = None) :
  let tr := events (checkAndResetFiveHourWindow env account fiveHourData w) in
  countEvents isProbeStart tr = 1%nat
  /\ countEvents isRemainingTimeLog tr = 0%nat.
Proof.
  destruct (trigger_returns env account w) as (b & tr & w' & Hrun).
  pose proof (trigger_trace env account w) as Htr.
  rewrite Hrun in Htr. cbn [events fst snd] in Htr.
  destruct Htr as [Hstart Hlog].
  rewrite (@check_absent account fiveHourData w w' b tr Habsent Hrun).
  cbn [events fst snd].
  change (ELog LInfo (MNoResetsAt (name account)) :: tr ++ ?x)
    with ([ELog LInfo (MNoResetsAt (name account))] ++ tr ++ x).
  rewrite !countEvents_app, Hstart, Hlog.
  destruct b; split; reflexivity.
Qed.

(** C3. For a five-hour window whose [resets_at] is absent, the window
    check runs the probe once, from the world it was called in, and
    returns exactly the boolean the probe returned: its trace is the
    announcement, the probe's own trace, and the line reporting the
    probe's result.  The probe is entered exactly once and the
    remaining-time line is never logged. *)
Theorem C3_absent_resets_at_probes_once
    (account : Account) (fiveHourData : UsageWindow) (w : World)
    (Habsent : resets_at fiveHourData = None) :
  exists (b : bool) (tr : Trace) (w' : World),
    triggerFiveHourInitialization env account w = (Normal b, tr, w')
    /\ checkAndResetFiveHourWindow env account fiveHourData w
       = (Normal b,
          ELog LInfo (MNoResetsAt (name account)) :: tr
            ++ [if b then ELog LSuccess (MInitialized (name account))
                else ELog LWarn (MNotInitialized (name account))],
          w')
    /\ countEvents isProbeStart
         (events (checkAndResetFiveHourWindow env account fiveHourData w))
       = 1%nat
    /\ countEvents isRemainingTimeLog
         (events (checkAndResetFiveHourWindow env account fiveHourData w))
       = 0%nat.
Proof.
  destruct (trigger_returns env account w) as (b & tr & w' & Hrun).
  destruct (check_absent_counts account fiveHourData w Habsent)
    as [Hone Hzero].
  exists b, tr, w'.
  split; [exact Hrun|].
  split; [exact (@check_absent account fiveHourData w w' b tr Habsent Hrun)|].
  split; assumption.
Qed.

(** The window check on a window whose [resets_at] is present. *)
Lemma check_present (account : Account) (fiveHourData : UsageWindow)
    (w : World) (ts : timestamp)
    (Hpresent : resets_at fiveHourData = Some ts) :
  checkAndResetFiveHourWindow env account fiveHourData w
  = (Normal false,
     match getTime ts with
     | Some resetsAt =>
         let remainingMinutes := (resetsAt - Date_now env w) / 60000 in
         if remainingMinutes <=? RESET_THRESHOLD_MINUTES then
           let u := or_zero (utilization fiveHourData) in
           [ELog LInfo
              (MWindowExpires (name account) remainingMinutes
                 (u * 100)%float (Math_round ((1 - u) * 100)%float))]
         else []
     | None => []
     end,
     w).
Proof.
  unfold checkAndResetFiveHourWindow, checkBody.
  rewrite Hpresent.
  unfold bind, try_catch, logger, emit, ret, now_ms.
  destruct (getTime ts) as [resetsAt|]; [|reflexivity].
  change (1000 * 60) with 60000.
  destruct ((resetsAt - Date_now env w) / 60000 <=? RESET_THRESHOLD_MINUTES);
    reflexivity.
Qed.

(** C4. With [resets_at] present and at most ten minutes remaining, the
    window check emits one event, the impending-reset line with the
    remaining minutes and the remaining quota
    [Math.round((1 - utilization) * 100)]; it calls no collaborator,
    leaves the world as it was and returns false.  With utilization 0.8
    and a reset six minutes ahead the logged quota is 20. *)
Theorem C4_impending_reset_is_only_logged :
  (forall (account : Account) (fiveHourData : UsageWindow) (w : World)
          (resetsAt : Z),
      resets_at fiveHourData = Some (Instant resetsAt) ->
      (resetsAt - Date_now env w) / 60000 <= RESET_THRESHOLD_MINUTES ->
      checkAndResetFiveHourWindow env account fiveHourData w
      = (Normal false,
         [ELog LInfo
            (MWindowExpires (name account)
               ((resetsAt - Date_now env w) / 60000)
               (or_zero (utilization fiveHourData) * 100)%float
               (Math_round
                  ((1 - or_zero (utilization fiveHourData)) * 100)%float))],
         w))
  /\ (forall (account : Account) (w : World),
        exists pct : float,
          checkAndResetFiveHourWindow env account
            {| resets_at := Some (Instant (Date_now env w + 6 * 60 * 1000));
               utilization := Some 0.8%float |} w
          = (Normal false,
             [ELog LInfo (MWindowExpires (name account) 6 pct 20%float)],
             w)).
Proof.
  split.
  - intros account fiveHourData w resetsAt Hpresent Hrem.
    rewrite (check_present account fiveHourData w Hpresent).
    cbn [getTime].
    apply Z.leb_le in Hrem. rewrite Hrem. reflexivity.
  - intros account w.
    exists (or_zero (Some 0.8%float) * 100)%float.
    erewrite check_present by reflexivity.
    cbn [getTime utilization].
    replace (Date_now env w + 6 * 60 * 1000 - Date_now env w)
      with 360000 by lia.
    change (360000 / 60000) with 6.
    change (6 <=? RESET_THRESHOLD_MINUTES) with true.
    cbv iota zeta.
    replace (Math_round ((1 - or_zero (Some 0.8%float)) * 100)%float)
      with 20%float by (vm_compute; reflexivity).
    reflexivity.
Qed.


End WindowCheck.

Section Planner.
Context {World : Type} (env : Env World).

Lemma min_fold_swap (ts : list Z) (a t : Z) :
  Z.min a (fold_right Z.min t ts) = Z.min t (fold_right Z.min a ts).
Proof.
  induction ts as [|x ts IH]; cbn [fold_right]; [lia|].
  specialize IH. lia.
Qed.

(** The head of the sorted entries carries the least trigger time. *)
Lemma sortEntries_head_time (l : list ScheduleEntry) :
  match sortEntries l, map resetTime l with
  | nearest :: _, t :: ts => resetTime nearest = PlannerSpec.minimum t ts
  | [], [] => True
  | _, _ => False
  end.
Proof.
  induction l as [|x l IH]; cbn [sortEntries fold_right map]; [exact I|].
  fold (sortEntries l).
  destruct (sortEntries l) as [|y s]; destruct (map resetTime l) as [|t ts];
    try contradiction; cbn [insertEntry].
  - reflexivity.
  - unfold PlannerSpec.minimum in *. cbn [fold_right].
    destruct (resetTime x <=? resetTime y) eqn:Hle;
      [apply Z.leb_le in Hle | apply Z.leb_gt in Hle].
    + rewrite <- min_fold_swap. rewrite <- IH. lia.
    + rewrite <- min_fold_swap. rewrite <- IH. lia.
Qed.

Lemma insertEntry_in (e x : ScheduleEntry) (l : list ScheduleEntry) :
  In x (insertEntry e l) <-> x = e \/ In x l.
Proof.
  induction l as [|y l IH]; cbn [insertEntry].
  - cbn. intuition.
  - destruct (resetTime e <=? resetTime y); cbn [In].
    + intuition.
    + rewrite IH. intuition.
Qed.

Lemma sortEntries_in (x : ScheduleEntry) (l : list ScheduleEntry) :
  In x (sortEntries l) <-> In x l.
Proof.
  induction l as [|y l IH]; cbn [sortEntries fold_right]; [tauto|].
  fold (sortEntries l). rewrite insertEntry_in, IH. cbn. intuition.
Qed.

(** The selected entry is one of the candidates and none is earlier. *)
Lemma sortEntries_head_least (l : list ScheduleEntry)
    (nearest : ScheduleEntry) (rest : list ScheduleEntry) :
  sortEntries l = nearest :: rest ->
  In nearest l
  /\ forall e, In e l -> resetTime nearest <= resetTime e.
Proof.
  revert nearest rest.
  induction l as [|x l IH]; intros nearest rest Hs.
  - discriminate.
  - cbn [sortEntries fold_right] in Hs. fold (sortEntries l) in Hs.
    destruct (sortEntries l) as [|y s] eqn:Hl; cbn [insertEntry] in Hs.
    + inversion Hs; subst. split; [left; reflexivity|].
      intros e [<-|Hin]; [lia|].
      apply sortEntries_in in Hin. rewrite Hl in Hin. contradiction.
    + destruct (IH y s eq_refl) as [Hy Hmin].
      destruct (resetTime x <=? resetTime y) eqn:Hle;
        [apply Z.leb_le in Hle | apply Z.leb_gt in Hle];
        inversion Hs; subst.
      * split; [left; reflexivity|].
        intros e [<-|Hin]; [lia|]. specialize (Hmin e Hin). lia.
      * split; [right; exact Hy|].
        intros e [<-|Hin]; [lia|]. exact (Hmin e Hin).
Qed.

(** The time of the entry pushed for a window is the time the
    specification forms, kept when it lies after [now]. *)
Lemma windowEntry_times (account : Account) (now : Z)
    (w : option UsageWindow) (wt : WindowType) :
  map resetTime (windowEntry account now w wt)
  = filter (fun t => now <? t) (PlannerSpec.triggerTimes w).
Proof.
  unfold windowEntry, PlannerSpec.triggerTimes.
  destruct w as [win|]; [|reflexivity].
  destruct (resets_at win) as [[ms|]|]; try reflexivity.
  cbn [getTime option_map JS.gt filter].
  unfold AFTER_RESET_MINUTES.
  destruct (now <? ms + 5 * 60 * 1000); reflexivity.
Qed.

Lemma entriesOf_times (accounts : list Account)
    (stored : string -> option UsageSnapshot) (now : Z) :
  map resetTime (entriesOf accounts stored now)
  = PlannerSpec.candidates accounts stored now.
Proof.
  unfold entriesOf, PlannerSpec.candidates.
  induction accounts as [|a accounts IH]; [reflexivity|].
  cbn [flat_map]. rewrite map_app, filter_app, IH. f_equal.
  destruct (String.eqb (isActive a) "true"); [|reflexivity].
  destruct (stored (id a)) as [snap|]; [|reflexivity].
  rewrite map_app, filter_app, !windowEntry_times. reflexivity.
Qed.

Section PersistedSnapshots.
Variable stored : string -> option UsageSnapshot.
Hypothesis Hstore :
  forall (i : string) (w : World),
    exists w', getClaudeUsageSnapshot env i w = (Normal (stored i), w').

(** Over a store that answers every read, the loop collects the
    entries of the active accounts in order. *)
Lemma collect_reads_store (accounts : list Account) (now : Z)
    (acc : list ScheduleEntry) (w : World) :
  exists tr w',
    collectResetTimes env accounts now acc w
    = (Normal (acc ++ entriesOf accounts stored now), tr, w').
Proof.
  revert acc w.
  induction accounts as [|a accounts IH]; intros acc w.
  - cbn. rewrite app_nil_r. do 2 eexists. reflexivity.
  - cbn [collectResetTimes entriesOf flat_map].
    fold (entriesOf accounts stored now).
    destruct (String.eqb (isActive a) "true"); cbn [negb].
    + destruct (Hstore (id a) w) as [w1 Hread].
      unfold bind, await. rewrite Hread.
      destruct (stored (id a)) as [snap|].
      * destruct (IH (acc ++ windowEntry a now (five_hour snap) W5h
                          ++ windowEntry a now (seven_day snap) W7d) w1)
          as (tr & w' & Hrun).
        rewrite Hrun. rewrite <- !app_assoc. eauto.
      * destruct (IH acc w1) as (tr & w' & Hrun).
        rewrite Hrun. eauto.
    + apply IH.
Qed.

Lemma chooseInterval_run (now : Z) (l : list ScheduleEntry) (w : World) :
  chooseInterval now l w
  = (Normal
       match sortEntries l with
       | nearest :: _ =>
           if resetTime nearest - now <? BASE_INTERVAL
           then Z.max (resetTime nearest - now) 60000
           else BASE_INTERVAL
       | [] => BASE_INTERVAL
       end,
     [ELog LInfo
        match sortEntries l with
        | nearest :: _ =>
            if resetTime nearest - now <? BASE_INTERVAL
            then MNextCheck (accountName nearest) (windowType nearest)
                   (round_div (resetTime nearest - now) 60000)
            else MNoUpcoming
        | [] => MNoUpcoming
        end],
     w).
Proof.
  unfold chooseInterval.
  destruct (sortEntries l) as [|nearest rest]; [reflexivity|].
  cbv zeta.
  destruct (resetTime nearest - now <? BASE_INTERVAL); reflexivity.
Qed.

(** A run of the planner over the store. *)
Lemma calculate_over_store (w w1 : World) (accounts : list Account)
    (Hlist : getAllClaudeAccounts env w = (Normal accounts, w1)) :
  exists tr w',
    calculateNextInterval env w
    = (Normal
         match sortEntries
                 (entriesOf accounts stored (Date_now env w1)) with
         | nearest :: _ =>
             if resetTime nearest - Date_now env w1 <? BASE_INTERVAL
             then Z.max (resetTime nearest - Date_now env w1) 60000
             else BASE_INTERVAL
         | [] => BASE_INTERVAL
         end,
       ECall CGetAllClaudeAccounts
         :: tr
         ++ [ELog LInfo
               match sortEntries
                       (entriesOf accounts stored (Date_now env w1)) with
               | nearest :: _ =>
                   if resetTime nearest - Date_now env w1 <? BASE_INTERVAL
                   then MNextCheck (accountName nearest)
                          (windowType nearest)
                          (round_div (resetTime nearest - Date_now env w1)
                             60000)
                   else MNoUpcoming
               | [] => MNoUpcoming
               end],
       w').
Proof.
  destruct (collect_reads_store accounts (Date_now env w1) [] w1)
    as (tr & w' & Hcollect).
  cbn [app] in Hcollect.
  exists tr, w'.
  unfold calculateNextInterval, bind, try_catch, await, now_ms.
  rewrite Hlist, Hcollect, chooseInterval_run. reflexivity.
Qed.

(** C1. Over persisted snapshots [stored], the planner's candidate
    entries carry exactly the times [resets_at + 5 minutes] of the
    active accounts' two windows that lie after [now]; its result is
    the one the specified algorithm gives: the base interval when
    there is no candidate, otherwise, for the least trigger time, the
    remaining time floored at one minute when it is below the base
    interval and the base interval when it is not.  The entry it
    selects is a candidate with the least trigger time, so of two
    candidates with [T1 < T2] the one with [T2] is not selected, and
    it is the entry named in the log line. *)
Theorem C1_planner_follows_algorithm (w w1 : World)
    (accounts : list Account)
    (Hlist : getAllClaudeAccounts env w = (Normal accounts, w1)) :
  let now := Date_now env w1 in
  let entries := entriesOf accounts stored now in
  let run := calculateNextInterval env w in
  map resetTime entries = PlannerSpec.candidates accounts stored now
  /\ result run = Normal (PlannerSpec.nextInterval accounts stored now)
  /\ (PlannerSpec.candidates accounts stored now = [] ->
      result run = Normal BASE_INTERVAL)
  /\ (forall nearest rest,
        sortEntries entries = nearest :: rest ->
        In nearest entries
        /\ (forall e, In e entries -> resetTime nearest <= resetTime e)
        /\ (forall e1 e2,
              In e1 entries -> In e2 entries ->
              resetTime e1 < resetTime e2 -> nearest <> e2)
        /\ now < resetTime nearest
        /\ result run
           = Normal (if resetTime nearest - now <? BASE_INTERVAL
                     then Z.max (resetTime nearest - now) 60000
                     else BASE_INTERVAL)
        /\ (resetTime nearest - now < BASE_INTERVAL ->
            In (ELog LInfo
                  (MNextCheck (accountName nearest) (windowType nearest)
                     (round_div (resetTime nearest - now) 60000)))
               (events run))).
Proof.
  intros now entries run.
  pose proof (entriesOf_times accounts stored now) as Htimes.
  fold entries in Htimes.
  destruct (calculate_over_store w Hlist) as (tr & w' & Hrun).
  fold now entries in Hrun. fold run in Hrun.
  pose proof (sortEntries_head_time entries) as Hhead.
  rewrite Htimes in Hhead.
  assert (Hres :
    result run = Normal (PlannerSpec.nextInterval accounts stored now)).
  { rewrite Hrun. cbn [result fst].
    unfold PlannerSpec.nextInterval.
    destruct (sortEntries entries) as [|nearest rest];
      destruct (PlannerSpec.candidates accounts stored now) as [|t ts];
      try contradiction.
    - reflexivity.
    - cbv zeta. rewrite <- Hhead. reflexivity. }
  split; [exact Htimes|].
  split; [exact Hres|].
  split.
  { intros Hnone. rewrite Hres. unfold PlannerSpec.nextInterval.
    rewrite Hnone. reflexivity. }
  intros nearest rest Hsort.
  destruct (sortEntries_head_least entries Hsort) as [Hin Hleast].
  split; [exact Hin|].
  split; [exact Hleast|].
  split.
  { intros e1 e2 Hin1 Hin2 Hlt Heq. subst e2.
    specialize (Hleast e1 Hin1). lia. }
  split.
  { assert (Hc : In (resetTime nearest)
                    (PlannerSpec.candidates accounts stored now)).
    { rewrite <- Htimes. apply in_map. exact Hin. }
    unfold PlannerSpec.candidates in Hc.
    apply filter_In in Hc. destruct Hc as [_ Hc].
    apply Z.ltb_lt in Hc. exact Hc. }
  rewrite Hrun, Hsort. cbn [result events fst snd].
  split; [reflexivity|].
  intros Hnear. apply Z.ltb_lt in Hnear. rewrite Hnear.
  right. apply in_or_app. right. left. reflexivity.
Qed.

End PersistedSnapshots.

End Planner.

Section UpdatePass.
Context {World : Type} (env : Env World).

Ltac unfold_all :=
  unfold checkAndResetFiveHourWindow, checkBody,
    triggerFiveHourInitialization, triggerBody;
  unfold bind, try_catch, ret, logger, emit, await, delay, lift_outcome,
    now_ms.

(** The probe logs none of the lines of the update pass, waits no
    inter-account delay, and fetches usage only after its own wait. *)
Lemma trigger_events (account : Account) (w : World) :
  let tr := events (triggerFiveHourInitialization env account w) in
  countEvents isUpdatedLog tr = 0%nat
  /\ countEvents isFailureLog tr = 0%nat
  /\ countEvents isInitializedLog tr = 0%nat
  /\ countEvents isInterAccountDelay tr = 0%nat
  /\ forall ready, spacedFrom ready tr <> None.
Proof.
  unfold_all.
  repeat step_match; cbn; repeat split; auto;
    intros [|]; cbn; discriminate.
Qed.

(** The window check never throws; it logs the initialization line
    exactly when it returns true. *)
Lemma check_returns (account : Account) (fiveHourData : UsageWindow)
    (w : World) :
  exists b tr w',
    checkAndResetFiveHourWindow env account fiveHourData w
    = (Normal b, tr, w')
    /\ countEvents isUpdatedLog tr = 0%nat
    /\ countEvents isFailureLog tr = 0%nat
    /\ countEvents isInitializedLog tr = (if b then 1 else 0)%nat
    /\ countEvents isInterAccountDelay tr = 0%nat
    /\ forall ready, spacedFrom ready tr <> None.
Proof.
  destruct (resets_at fiveHourData) as [ts|] eqn:Hr.
  - rewrite (check_present env account fiveHourData w Hr).
    do 3 eexists. split; [reflexivity|].
    destruct (getTime ts) as [resetsAt|]; cbv zeta;
      [destruct (_ <=? _)|]; cbn; repeat split; auto;
      intros [|]; cbn; discriminate.
  - destruct (trigger_returns env account w) as (b & tr & w' & Hprobe).
    pose proof (@check_absent World env account fiveHourData w w' b tr Hr Hprobe)
      as Hcheck.
    pose proof (trigger_events account w) as Hev.
    rewrite Hprobe in Hev. cbn [events fst snd] in Hev.
    destruct Hev as (Hu & Hf & Hi & Hd & Hs).
    rewrite Hcheck. do 3 eexists. split; [reflexivity|].
    unfold countEvents in *.
    cbn [filter isUpdatedLog isFailureLog isInitializedLog
           isInterAccountDelay].
    rewrite !filter_app, !length_app, Hu, Hf, Hi, Hd.
    repeat split; try (destruct b; reflexivity).
    intros ready. cbn [spacedFrom].
    specialize (Hs ready).
    destruct (spacedFrom ready tr) as [r|] eqn:Hsp; [|contradiction].
    rewrite (spacedFrom_app _ _ _ Hsp).
    destruct b; cbn; discriminate.
Qed.

(** What one eligible account contributes: the [try]/[catch] never
    throws, exactly one of the success and failure lines is logged and
    the matching counter moves with it, and no inter-account delay is
    waited inside. *)
Lemma tryRefresh_step (account : Account) (c : Counters) (w : World) :
  exists c' tr w',
    tryRefresh env account c w = (Normal c', tr, w')
    /\ successCount c' = successCount c + Z.of_nat (countEvents isUpdatedLog tr)
    /\ failureCount c' = failureCount c + Z.of_nat (countEvents isFailureLog tr)
    /\ initCount c' = initCount c + Z.of_nat (countEvents isInitializedLog tr)
    /\ skipCount c' = skipCount c
    /\ (countEvents isUpdatedLog tr + countEvents isFailureLog tr = 1)%nat
    /\ countEvents isInterAccountDelay tr = 0%nat
    /\ spacedFrom true tr <> None.
Proof.
  unfold tryRefresh, refreshAccount.
  unfold bind, try_catch, ret, logger, emit, await.
  destruct (fetchOAuthUsage env (id account) w) as [[[u|]|e] w1].
  - destruct (updateClaudeUsageSnapshot env (id account) u w1)
      as [[[]|e] w2].
    + destruct (five_hour u) as [win|].
      * destruct (check_returns account win w2)
          as (b & tr & w3 & Hrun & Hu & Hf & Hi & Hd & Hs).
        rewrite Hrun.
        do 3 eexists. split; [reflexivity|].
        change [ECall (CFetchOAuthUsage (id account))] with
               ([ECall (CFetchOAuthUsage (id account))] ++ []).
        cbn [app].
        change (?a :: ?b :: (tr ++ []) ++ ?x) with ([a; b] ++ (tr ++ []) ++ x).
        rewrite app_nil_r.
        rewrite !countEvents_app, Hu, Hf, Hi, Hd.
        specialize (Hs false).
        destruct (spacedFrom false tr) as [r|] eqn:Hsp; [|contradiction].
        repeat split; try (destruct b; cbn; lia).
        cbn [app spacedFrom].
        rewrite (spacedFrom_app _ _ _ Hsp). cbn. discriminate.
      * do 3 eexists. split; [reflexivity|].
        cbn. repeat split; try lia. discriminate.
    + do 3 eexists. split; [reflexivity|].
      cbn. repeat split; try lia. discriminate.
  - do 3 eexists. split; [reflexivity|].
    cbn. repeat split; try lia. discriminate.
  - do 3 eexists. split; [reflexivity|].
    cbn. repeat split; try lia. discriminate.
Qed.

Lemma updateLoop_skipped (account : Account) (rest : list Account)
    (c : Counters) (w : World) :
  eligible account = false ->
  updateLoop env (account :: rest) c w = updateLoop env rest (incSkip c) w.
Proof.
  unfold eligible. cbn [updateLoop].
  destruct (String.eqb (isActive account) "true"); cbn [negb andb];
    [|reflexivity].
  intros ->. reflexivity.
Qed.

Lemma updateLoop_eligible (account : Account) (rest : list Account)
    (c : Counters) (w : World) :
  eligible account = true ->
  updateLoop env (account :: rest) c w
  = (c' <- tryRefresh env account c ;;
     delay env 1000 ;;
     updateLoop env rest c') w.
Proof.
  unfold eligible. cbn [updateLoop].
  destruct (String.eqb (isActive account) "true"); cbn [negb andb];
    [|discriminate].
  intros ->. reflexivity.
Qed.

(** The loop never throws, and its counters are the numbers of the
    corresponding lines it logged and of the accounts it skipped; one
    inter-account delay is waited per eligible account, and every usage
    fetch comes at least a second after the previous one. *)
Lemma updateLoop_counts (accounts : list Account) (c : Counters)
    (w : World) :
  exists c' tr w',
    updateLoop env accounts c w = (Normal c', tr, w')
    /\ successCount c' = successCount c + Z.of_nat (countEvents isUpdatedLog tr)
    /\ failureCount c' = failureCount c + Z.of_nat (countEvents isFailureLog tr)
    /\ initCount c' = initCount c + Z.of_nat (countEvents isInitializedLog tr)
    /\ skipCount c'
       = skipCount c
         + Z.of_nat (List.length (filter (fun a => negb (eligible a)) accounts))
    /\ (countEvents isUpdatedLog tr + countEvents isFailureLog tr
        = List.length (filter eligible accounts))%nat
    /\ countEvents isInterAccountDelay tr
       = List.length (filter eligible accounts)
    /\ spacedFrom true tr = Some true.
Proof.
  revert c w.
  induction accounts as [|a rest IH]; intros c w.
  - do 3 eexists. split; [reflexivity|].
    cbn. repeat split; lia.
  - cbn [filter]. destruct (eligible a) eqn:Hel; cbn [negb].
    + rewrite (updateLoop_eligible a rest c w Hel).
      destruct (tryRefresh_step a c w)
        as (c1 & tr1 & w1 & Hstep & Hs1 & Hf1 & Hi1 & Hk1 & Hone & Hd1 & Hsp1).
      destruct (IH c1 (elapse env 1000 w1))
        as (c2 & tr2 & w2 & Hrest & Hs2 & Hf2 & Hi2 & Hk2 & Hn2 & Hd2 & Hsp2).
      unfold bind, delay. rewrite Hstep, Hrest.
      do 3 eexists. split; [reflexivity|].
      change (tr1 ++ EDelay 1000 :: tr2) with (tr1 ++ [EDelay 1000] ++ tr2).
      rewrite !countEvents_app. cbn [List.length].
      destruct (spacedFrom true tr1) as [r|] eqn:Hsp; [|contradiction].
      repeat split; try (cbn; lia).
      rewrite (spacedFrom_app _ _ _ Hsp).
      cbn [app spacedFrom]. change (1000 <=? 1000) with true.
      rewrite orb_true_r. exact Hsp2.
    + rewrite (updateLoop_skipped a rest c w Hel).
      destruct (IH (incSkip c) w)
        as (c2 & tr2 & w2 & Hrest & Hs2 & Hf2 & Hi2 & Hk2 & Hn2 & Hd2 & Hsp2).
      rewrite Hrest.
      do 3 eexists. split; [reflexivity|].
      cbn [List.length incSkip skipCount successCount failureCount initCount]
        in *.
      repeat split; try lia. exact Hsp2.
Qed.

Lemma tryRefresh_throws (account : Account) (c : Counters) (w w1 : World)
    (e : Error) :
  fetchOAuthUsage env (id account) w = (Throw e, w1) ->
  tryRefresh env account c w
  = (Normal (incFailure c),
     [ECall (CFetchOAuthUsage (id account));
      ELog LWarn (MUpdateFailed (name account) e)],
     w1).
Proof.
  intros Hfetch.
  unfold tryRefresh, refreshAccount, bind, try_catch, await.
  rewrite Hfetch. reflexivity.
Qed.

Lemma tryRefresh_null (account : Account) (c : Counters) (w w1 : World) :
  fetchOAuthUsage env (id account) w = (Normal None, w1) ->
  tryRefresh env account c w
  = (Normal (incFailure c),
     [ECall (CFetchOAuthUsage (id account));
      ELog LWarn (MNoUsageData (name account))],
     w1).
Proof.
  intros Hfetch.
  unfold tryRefresh, refreshAccount, bind, try_catch, await.
  rewrite Hfetch. reflexivity.
Qed.

(** A fetch that returns data which is then persisted counts as one
    success, whatever the window check does. *)
Lemma tryRefresh_succeeds (account : Account) (c : Counters)
    (w w1 w2 : World) (u : UsageSnapshot) :
  fetchOAuthUsage env (id account) w = (Normal (Some u), w1) ->
  updateClaudeUsageSnapshot env (id account) u w1 = (Normal tt, w2) ->
  exists c' tr w',
    tryRefresh env account c w
    = (Normal c', ECall (CFetchOAuthUsage (id account)) :: tr, w')
    /\ successCount c' = successCount c + 1
    /\ failureCount c' = failureCount c
    /\ skipCount c' = skipCount c.
Proof.
  intros Hfetch Hpersist.
  unfold tryRefresh, refreshAccount.
  unfold bind, try_catch, ret, logger, emit, await.
  rewrite Hfetch, Hpersist.
  destruct (five_hour u) as [win|].
  - destruct (check_returns account win w2) as (b & tr & w3 & Hrun & _).
    rewrite Hrun.
    do 3 eexists. split; [reflexivity|].
    destruct b; cbn; repeat split; lia.
  - do 3 eexists. split; [reflexivity|].
    cbn; repeat split; lia.
Qed.

Lemma updateLoop_step (account : Account) (rest : list Account)
    (c c1 : Counters) (w w1 w2 : World) (tr1 tr2 : Trace)
    (r : outcome Counters) :
  eligible account = true ->
  tryRefresh env account c w = (Normal c1, tr1, w1) ->
  updateLoop env rest c1 (elapse env 1000 w1) = (r, tr2, w2) ->
  updateLoop env (account :: rest) c w = (r, tr1 ++ EDelay 1000 :: tr2, w2).
Proof.
  intros Hel Hstep Hrest.
  rewrite (updateLoop_eligible account rest c w Hel).
  unfold bind, delay. rewrite Hstep, Hrest. reflexivity.
Qed.

(** C2. The loop of the update pass never throws.  For an eligible
    account whose usage fetch throws, or returns no data, the failure
    counter is incremented (the other counters are untouched), the
    failure is logged, the inter-account delay is waited, and the loop
    goes on with the remaining accounts.  A pass over three eligible
    accounts in which only the second one's fetch throws (the other two
    return data that is persisted) processes the third account and logs
    the counters: 2 success, 0 skipped, 1 failed, total 3. *)
Theorem C2_account_failure_counted_and_pass_continues :
  (forall (accounts : list Account) (c : Counters) (w : World),
      exists c' tr w', updateLoop env accounts c w = (Normal c', tr, w'))
  /\ (forall (account : Account) (rest : list Account) (c : Counters)
             (w w1 : World) (e : Error),
        eligible account = true ->
        fetchOAuthUsage env (id account) w = (Throw e, w1) ->
        let next := updateLoop env rest (incFailure c) (elapse env 1000 w1) in
        updateLoop env (account :: rest) c w
        = (result next,
           [ECall (CFetchOAuthUsage (id account));
            ELog LWarn (MUpdateFailed (name account) e);
            EDelay 1000] ++ events next,
           final next))
  /\ (forall (account : Account) (rest : list Account) (c : Counters)
             (w w1 : World),
        eligible account = true ->
        fetchOAuthUsage env (id account) w = (Normal None, w1) ->
        let next := updateLoop env rest (incFailure c) (elapse env 1000 w1) in
        updateLoop env (account :: rest) c w
        = (result next,
           [ECall (CFetchOAuthUsage (id account));
            ELog LWarn (MNoUsageData (name account));
            EDelay 1000] ++ events next,
           final next))
  /\ (forall (a1 a2 a3 : Account) (w0 w : World),
        eligible a1 = true -> eligible a2 = true -> eligible a3 = true ->
        getAllClaudeAccounts env w0 = (Normal [a1; a2; a3], w) ->
        (forall w, exists u w',
            fetchOAuthUsage env (id a1) w = (Normal (Some u), w')) ->
        (forall w, exists e w',
            fetchOAuthUsage env (id a2) w = (Throw e, w')) ->
        (forall w, exists u w',
            fetchOAuthUsage env (id a3) w = (Normal (Some u), w')) ->
        (forall i u w, exists w',
            updateClaudeUsageSnapshot env i u w = (Normal tt, w')) ->
        exists (initialized : Z) (tr : Trace) (w' : World),
          updateAllAccountsUsage env w0
          = (Normal tt,
             tr ++ [ELog LInfo (MUpdateCompleted 2 0 initialized 1 3)],
             w')
          /\ In (ECall (CFetchOAuthUsage (id a3))) tr).
Proof.
  split.
  { intros accounts c w.
    destruct (updateLoop_counts accounts c w) as (c' & tr & w' & H & _).
    eauto. }
  split.
  { intros account rest c w w1 e Hel Hfetch next.
    rewrite (updateLoop_eligible account rest c w Hel).
    unfold bind, delay.
    rewrite (tryRefresh_throws account c w Hfetch).
    fold next. destruct next as [[r tr] w']. reflexivity. }
  split.
  { intros account rest c w w1 Hel Hfetch next.
    rewrite (updateLoop_eligible account rest c w Hel).
    unfold bind, delay.
    rewrite (tryRefresh_null account c w Hfetch).
    fold next. destruct next as [[r tr] w']. reflexivity. }
  intros a1 a2 a3 w0 w Hel1 Hel2 Hel3 Hlist Hf1 Hf2 Hf3 Hpersist.
  destruct (Hf1 w) as (u1 & w1 & Hfetch1).
  destruct (Hpersist (id a1) u1 w1) as (w1' & Hp1).
  destruct (tryRefresh_succeeds a1 zeroCounters w Hfetch1 Hp1)
    as (c1 & tr1 & w1'' & Hstep1 & Hs1 & Hfl1 & Hk1).
  destruct (Hf2 (elapse env 1000 w1'')) as (e2 & w2 & Hfetch2).
  pose proof (tryRefresh_throws a2 c1 (elapse env 1000 w1'') Hfetch2)
    as Hstep2.
  destruct (Hf3 (elapse env 1000 w2)) as (u3 & w3 & Hfetch3).
  destruct (Hpersist (id a3) u3 w3) as (w3' & Hp3).
  destruct (tryRefresh_succeeds a3 (incFailure c1) (elapse env 1000 w2)
              Hfetch3 Hp3)
    as (c3 & tr3 & w3'' & Hstep3 & Hs3 & Hfl3 & Hk3).
  pose proof (updateLoop_step a3 [] (incFailure c1) (elapse env 1000 w2)
                Hel3 Hstep3 eq_refl) as Hloop3.
  pose proof (updateLoop_step a2 [a3] c1 (elapse env 1000 w1'')
                Hel2 Hstep2 Hloop3) as Hloop2.
  pose proof (updateLoop_step a1 [a2; a3] zeroCounters w
                Hel1 Hstep1 Hloop2) as Hloop1.
  unfold updateAllAccountsUsage, bind, try_catch, logger, emit, await.
  rewrite Hlist, Hloop1.
  unfold completedMessage.
  cbn [incFailure successCount failureCount skipCount initCount
         zeroCounters] in *.
  rewrite Hs3, Hs1, Hfl3, Hfl1, Hk3, Hk1.
  eexists (initCount c3), _, _.
  split.
  - cbn [List.length Z.of_nat Pos.of_succ_nat Pos.succ Z.add Pos.add].
    rewrite !app_comm_cons. rewrite !app_assoc. reflexivity.
  - apply in_or_app. left. apply in_or_app. right.
    right. left. reflexivity.
Qed.

Lemma eligible_partition (accounts : list Account) :
  (List.length (filter eligible accounts)
   + List.length (filter (fun a => negb (eligible a)) accounts)
   = List.length accounts)%nat.
Proof.
  induction accounts as [|a rest IH]; [reflexivity|].
  cbn [filter]. destruct (eligible a); cbn [negb List.length]; lia.
Qed.

(** C7 (as the code has it). An eligible account, whether its refresh
    succeeds or fails, is followed by one wait of 1000 ms before the
    loop goes on with the remaining accounts, and no such wait occurs
    while it is processed; a skipped account is followed by no wait and
    the loop goes on at once.  Hence a pass waits once per eligible
    account, and every usage fetch comes at least one second after the
    previous one. *)
Theorem C7_delay_after_each_eligible_account :
  (forall (account : Account) (rest : list Account) (c : Counters)
          (w : World),
      eligible account = true ->
      exists c1 tr1 w1,
        tryRefresh env account c w = (Normal c1, tr1, w1)
        /\ countEvents isInterAccountDelay tr1 = 0%nat
        /\ let next := updateLoop env rest c1 (elapse env 1000 w1) in
           updateLoop env (account :: rest) c w
           = (result next, tr1 ++ EDelay 1000 :: events next, final next))
  /\ (forall (account : Account) (rest : list Account) (c : Counters)
             (w : World),
        eligible account = false ->
        updateLoop env (account :: rest) c w
        = updateLoop env rest (incSkip c) w)
  /\ (forall (accounts : list Account) (c : Counters) (w : World),
        countEvents isInterAccountDelay
          (events (updateLoop env accounts c w))
        = List.length (filter eligible accounts))
  /\ (forall (accounts : list Account) (c : Counters) (w : World),
        spacedFrom true (events (updateLoop env accounts c w)) = Some true).
Proof.
  split.
  { intros account rest c w Hel.
    destruct (tryRefresh_step account c w)
      as (c1 & tr1 & w1 & Hstep & _ & _ & _ & _ & _ & Hd & _).
    exists c1, tr1, w1.
    split; [exact Hstep|]. split; [exact Hd|].
    intros next.
    destruct next as [[r tr2] w2] eqn:Hnext.
    exact (updateLoop_step account rest c w Hel Hstep Hnext). }
  split; [exact updateLoop_skipped|].
  split.
  - intros accounts c w.
    destruct (updateLoop_counts accounts c w)
      as (c' & tr & w' & Hrun & _ & _ & _ & _ & _ & Hd & _).
    rewrite Hrun. exact Hd.
  - intros accounts c w.
    destruct (updateLoop_counts accounts c w)
      as (c' & tr & w' & Hrun & _ & _ & _ & _ & _ & _ & Hsp).
    rewrite Hrun. exact Hsp.
Qed.

(** The probe returns what the specified confirmation gives. *)
Lemma trigger_meets_spec (account : Account) (w : World) :
  exists tr,
    triggerFiveHourInitialization env account w
    = (Normal (fst (PassSpec.probeConfirms env account w)), tr,
       snd (PassSpec.probeConfirms env account w)).
Proof.
  unfold PassSpec.probeConfirms.
  unfold triggerFiveHourInitialization, triggerBody.
  unfold bind, try_catch, ret, logger, emit, await, delay, lift_outcome.
  repeat step_match; cbn in *; try discriminate;
    repeat match goal with
      | H : Normal _ = Normal _ |- _ => inversion H; subst; clear H
      | H : (_, _) = (_, _) |- _ => inversion H; subst; clear H
      end;
    try discriminate; eexists; reflexivity.
Qed.

Lemma check_meets_spec (account : Account) (win : UsageWindow) (w : World) :
  exists tr,
    checkAndResetFiveHourWindow env account win w
    = (Normal (fst (PassSpec.windowInitialized env account win w)), tr,
       snd (PassSpec.windowInitialized env account win w)).
Proof.
  unfold PassSpec.windowInitialized.
  destruct (resets_at win) as [ts|] eqn:Hr.
  - rewrite (check_present env account win w Hr). eexists. reflexivity.
  - destruct (trigger_meets_spec account w) as (tr & Hrun).
    rewrite (@check_absent World env account win w _ _ tr Hr Hrun).
    eexists. reflexivity.
Qed.

(** One eligible account: its usage is fetched first, and the counters
    move as its specified outcome says. *)
Lemma tryRefresh_meets_spec (account : Account) (c : Counters) (w : World) :
  exists tr,
    tryRefresh env account c w
    = (Normal (PassSpec.tally (fst (PassSpec.accountOutcome env account w)) c),
       ECall (CFetchOAuthUsage (id account)) :: tr,
       snd (PassSpec.accountOutcome env account w)).
Proof.
  unfold PassSpec.accountOutcome, tryRefresh, refreshAccount.
  unfold bind, try_catch, ret, logger, emit, await.
  destruct (fetchOAuthUsage env (id account) w) as [[[u|]|e] w1];
    try (eexists; reflexivity).
  destruct (updateClaudeUsageSnapshot env (id account) u w1) as [[[]|e] w2];
    try (eexists; reflexivity).
  destruct (five_hour u) as [win|]; try (eexists; reflexivity).
  destruct (check_meets_spec account win w2) as (tr & Hrun).
  rewrite Hrun.
  destruct (PassSpec.windowInitialized env account win w2) as [b w3].
  cbn [fst snd PassSpec.tally]. eexists. reflexivity.
Qed.

(** The loop: the counters are the tally of the specified outcomes, the
    world is the one the specified pass ends in, and the usage of every
    eligible account is fetched. *)
Lemma updateLoop_meets_spec (accounts : list Account) (c : Counters)
    (w : World) :
  exists tr,
    updateLoop env accounts c w
    = (Normal
         (fold_left (fun c' o => PassSpec.tally o c')
            (fst (PassSpec.outcomes env accounts w)) c),
       tr,
       snd (PassSpec.outcomes env accounts w))
    /\ forall a,
         In a accounts -> eligible a = true ->
         In (ECall (CFetchOAuthUsage (id a))) tr.
Proof.
  revert c w.
  induction accounts as [|a rest IH]; intros c w.
  - exists []. split; [reflexivity|]. intros a [].
  - cbn [PassSpec.outcomes]. destruct (eligible a) eqn:Hel.
    + destruct (tryRefresh_meets_spec a c w) as (tr1 & Hstep).
      destruct (PassSpec.accountOutcome env a w) as [o w1].
      cbn [fst snd] in Hstep.
      destruct (IH (PassSpec.tally o c) (elapse env 1000 w1))
        as (tr2 & Hrest & Hfetch).
      destruct (PassSpec.outcomes env rest (elapse env 1000 w1))
        as [os w2].
      cbn [fst snd] in *.
      rewrite (updateLoop_step a rest c w Hel Hstep Hrest).
      eexists. split; [reflexivity|].
      intros a' [<-|Hin] Hel'.
      * left. reflexivity.
      * apply in_or_app. right. right. exact (Hfetch a' Hin Hel').
    + rewrite (updateLoop_skipped a rest c w Hel).
      destruct (IH (incSkip c) w) as (tr2 & Hrest & Hfetch).
      destruct (PassSpec.outcomes env rest w) as [os w2].
      cbn [fst snd fold_left PassSpec.tally] in *.
      exists tr2. split; [exact Hrest|].
      intros a' [<-|Hin] Hel'; [congruence|].
      exact (Hfetch a' Hin Hel').
Qed.

Lemma outcomes_length (accounts : list Account) (w : World) :
  List.length (fst (PassSpec.outcomes env accounts w)) = List.length accounts.
Proof.
  revert w.
  induction accounts as [|a rest IH]; intros w; [reflexivity|].
  cbn [PassSpec.outcomes]. destruct (eligible a).
  - destruct (PassSpec.accountOutcome env a w) as [o w1].
    specialize (IH (elapse env 1000 w1)).
    destruct (PassSpec.outcomes env rest (elapse env 1000 w1)) as [os w2].
    cbn [fst List.length] in *. rewrite IH. reflexivity.
  - specialize (IH w).
    destruct (PassSpec.outcomes env rest w) as [os w2].
    cbn [fst List.length] in *. rewrite IH. reflexivity.
Qed.

(** What a tally of outcomes adds to each counter. *)
Lemma tally_counts (os : list PassSpec.Outcome) (c : Counters) :
  let c' := fold_left (fun c' o => PassSpec.tally o c') os c in
  successCount c'
  = successCount c
    + Z.of_nat (PassSpec.countOutcomes PassSpec.isRefreshed os)
  /\ skipCount c'
     = skipCount c + Z.of_nat (PassSpec.countOutcomes PassSpec.isSkipped os)
  /\ initCount c'
     = initCount c
       + Z.of_nat (PassSpec.countOutcomes PassSpec.isInitialized os)
  /\ failureCount c'
     = failureCount c + Z.of_nat (PassSpec.countOutcomes PassSpec.isFailed os).
Proof.
  revert c. unfold PassSpec.countOutcomes.
  induction os as [|o os IH]; intros c; [cbn; repeat split; lia|].
  cbn [fold_left]. cbv zeta in *.
  destruct (IH (PassSpec.tally o c)) as (Hs & Hk & Hi & Hf).
  rewrite Hs, Hk, Hi, Hf.
  destruct o as [|[|]|]; cbn; repeat split; lia.
Qed.

Lemma updateAll_listed (w w1 w' : World) (accounts : list Account)
    (c : Counters) (tr : Trace) :
  getAllClaudeAccounts env w = (Normal accounts, w1) ->
  updateLoop env accounts zeroCounters w1 = (Normal c, tr, w') ->
  updateAllAccountsUsage env w
  = (Normal tt,
     ELog LInfo MUpdateStart :: ECall CGetAllClaudeAccounts :: tr
       ++ [ELog LInfo
             (MUpdateCompleted (successCount c) (skipCount c)
                (initCount c) (failureCount c)
                (Z.of_nat (List.length accounts)))],
     w').
Proof.
  intros Hlist Hrun.
  unfold updateAllAccountsUsage, bind, try_catch, logger, emit, await.
  rewrite Hlist, Hrun. reflexivity.
Qed.

(** A failure of the listing is caught inside the pass (line 116). *)
Lemma updateAll_listing_fails (w w1 : World) (e : Error) :
  getAllClaudeAccounts env w = (Throw e, w1) ->
  updateAllAccountsUsage env w
  = (Normal tt,
     [ELog LInfo MUpdateStart; ECall CGetAllClaudeAccounts;
      ELog LError (MUpdateAllFailed e)],
     w1).
Proof.
  intros Hlist.
  unfold updateAllAccountsUsage, bind, try_catch, logger, emit, await.
  rewrite Hlist. reflexivity.
Qed.

(** The update pass never throws. *)
Lemma updateAll_returns (w : World) :
  exists tr w', updateAllAccountsUsage env w = (Normal tt, tr, w').
Proof.
  destruct (getAllClaudeAccounts env w) as [[accounts|e] w1] eqn:Hlist.
  - destruct (updateLoop_counts accounts zeroCounters w1)
      as (c & tr & w' & Hrun & _).
    rewrite (updateAll_listed w Hlist Hrun). eauto.
  - rewrite (updateAll_listing_fails w Hlist). eauto.
Qed.

(** C8 (as the code has it). The update pass returns no value to its
    caller: it always completes with [undefined].  When the accounts
    are listed, the counters are reported in its last log line, and they
    are the numbers of accounts, among those listed, that were refreshed
    (usage fetched and persisted), skipped as ineligible, initialized (a
    dormant five-hour window whose probe confirmed the activation) and
    failed (the fetch threw or returned nothing, or the snapshot could
    not be persisted), as the collaborators answered along the pass; the
    last field is the number of accounts listed, and success, skipped and
    failed add up to it.  The usage of every eligible account is fetched,
    and the counters are also the numbers of the success, initialization
    and failure lines logged.  When the listing fails, only the error is
    logged. *)
Theorem C8_counts_are_logged_not_returned :
  (forall w : World,
      exists tr w', updateAllAccountsUsage env w = (Normal tt, tr, w'))
  /\ (forall (w w1 : World) (accounts : list Account),
        getAllClaudeAccounts env w = (Normal accounts, w1) ->
        exists c tr w',
          updateLoop env accounts zeroCounters w1 = (Normal c, tr, w')
          /\ updateAllAccountsUsage env w
             = (Normal tt,
                ELog LInfo MUpdateStart :: ECall CGetAllClaudeAccounts :: tr
                  ++ [ELog LInfo
                        (MUpdateCompleted (successCount c) (skipCount c)
                           (initCount c) (failureCount c)
                           (Z.of_nat (List.length accounts)))],
                w')
          /\ successCount c = Z.of_nat (countEvents isUpdatedLog tr)
          /\ skipCount c
             = Z.of_nat
                 (List.length (filter (fun a => negb (eligible a)) accounts))
          /\ initCount c = Z.of_nat (countEvents isInitializedLog tr)
          /\ failureCount c = Z.of_nat (countEvents isFailureLog tr)
          /\ successCount c + skipCount c + failureCount c
             = Z.of_nat (List.length accounts)
          /\ (let os := fst (PassSpec.outcomes env accounts w1) in
              List.length os = List.length accounts
              /\ successCount c
                 = Z.of_nat (PassSpec.countOutcomes PassSpec.isRefreshed os)
              /\ skipCount c
                 = Z.of_nat (PassSpec.countOutcomes PassSpec.isSkipped os)
              /\ initCount c
                 = Z.of_nat (PassSpec.countOutcomes PassSpec.isInitialized os)
              /\ failureCount c
                 = Z.of_nat (PassSpec.countOutcomes PassSpec.isFailed os))
          /\ w' = snd (PassSpec.outcomes env accounts w1)
          /\ (forall a,
                In a accounts -> eligible a = true ->
                In (ECall (CFetchOAuthUsage (id a))) tr))
  /\ (forall (w w1 : World) (e : Error),
        getAllClaudeAccounts env w = (Throw e, w1) ->
        updateAllAccountsUsage env w
        = (Normal tt,
           [ELog LInfo MUpdateStart; ECall CGetAllClaudeAccounts;
            ELog LError (MUpdateAllFailed e)],
           w1)).
Proof.
  split; [exact updateAll_returns|].
  split; [|exact updateAll_listing_fails].
  intros w w1 accounts Hlist.
  destruct (updateLoop_counts accounts zeroCounters w1)
    as (c & tr & w' & Hrun & Hs & Hf & Hi & Hk & Hn & _).
  destruct (updateLoop_meets_spec accounts zeroCounters w1)
    as (tr2 & Hspec & Hfetch).
  rewrite Hrun in Hspec. inversion Hspec as [[Hc Htr Hw]].
  subst tr2.
  pose proof (tally_counts (fst (PassSpec.outcomes env accounts w1))
                zeroCounters) as Htally.
  cbv zeta in Htally. rewrite <- Hc in Htally.
  destruct Htally as (Hts & Htk & Hti & Htf).
  cbn [zeroCounters successCount failureCount skipCount initCount] in *.
  exists c, tr, w'.
  split; [exact Hrun|].
  split; [exact (updateAll_listed w Hlist Hrun)|].
  pose proof (eligible_partition accounts) as Hpart.
  split; [lia|]. split; [lia|]. split; [lia|]. split; [lia|].
  split; [lia|].
  split.
  { cbv zeta. split; [apply outcomes_length|].
    repeat split; lia. }
  split; [exact Hw|exact Hfetch].
Qed.

End UpdatePass.

Section SchedulerFacts.
Context {World : Type} (env : Env World).

(** A failure of the listing inside the planner yields the base
    interval (line 324). *)
Lemma calculate_listing_fails (w w1 : World) (e : Error) :
  getAllClaudeAccounts env w = (Throw e, w1) ->
  calculateNextInterval env w
  = (Normal BASE_INTERVAL,
     [ECall CGetAllClaudeAccounts; ELog LError (MCalcError e)],
     w1).
Proof.
  intros Hlist.
  unfold calculateNextInterval, bind, try_catch, logger, emit, await, ret.
  rewrite Hlist. reflexivity.
Qed.

(** The planner never throws and its result lies between one minute and
    the base interval. *)
Lemma calculate_returns (w : World) :
  exists v tr w',
    calculateNextInterval env w = (Normal v, tr, w')
    /\ 60000 <= v <= BASE_INTERVAL.
Proof.
  unfold calculateNextInterval, bind, try_catch, logger, emit, await, ret,
    now_ms.
  destruct (getAllClaudeAccounts env w) as [[accounts|e] w1].
  - destruct (collectResetTimes env accounts (Date_now env w1) [] w1)
      as [[[l|e] tr] w2].
    + rewrite chooseInterval_run.
      do 3 eexists. split; [reflexivity|].
      unfold BASE_INTERVAL.
      destruct (sortEntries l) as [|nearest rest]; [lia|].
      destruct (resetTime nearest - Date_now env w1 <? 20 * 60 * 1000)
        eqn:Hlt; [apply Z.ltb_lt in Hlt|]; lia.
    + do 3 eexists. split; [reflexivity|]. unfold BASE_INTERVAL. lia.
  - do 3 eexists. split; [reflexivity|]. unfold BASE_INTERVAL. lia.
Qed.

(** The scheduling step (lines 243-252). *)
Lemma scheduleNext_run (v : Z) (s : Service World) :
  scheduleNext env v s
  = (Normal tt,
     if isRunning s
     then [ELog LInfo
             (MNextScheduled (Date_now env (world s) + v)
                (round_div v 60000))]
     else [],
     if isRunning s then armedWith s (world s) v else s).
Proof.
  unfold scheduleNext, bind, getIsRunning, setTimeout, setMonitorTimeout,
    inWorld, now_ms, logger, emit, ret, armedWith.
  destruct (isRunning s) eqn:Hr; cbn; [rewrite Hr|]; reflexivity.
Qed.

(** The [catch] of the cycle (lines 253-261). *)
Lemma onCycleError_run (e : Error) (s : Service World) :
  onCycleError e s
  = (Normal tt,
     [ELog LError (MRunError e)],
     if isRunning s then armedWith s (world s) BASE_INTERVAL else s).
Proof.
  unfold onCycleError, bind, getIsRunning, setTimeout, setMonitorTimeout,
    logger, emit, ret, armedWith.
  destruct (isRunning s) eqn:Hr; cbn; [rewrite Hr|]; reflexivity.
Qed.

(** A whole cycle: the update pass, the planner, the scheduling step. *)
Lemma cycle_run (s : Service World) :
  exists tr1 w1 v tr2 w2,
    updateAllAccountsUsage env (world s) = (Normal tt, tr1, w1)
    /\ calculateNextInterval env w1 = (Normal v, tr2, w2)
    /\ 60000 <= v <= BASE_INTERVAL
    /\ runAndScheduleNext env s
       = (Normal tt,
          tr1 ++ tr2
            ++ (if isRunning s
                then [ELog LInfo
                        (MNextScheduled (Date_now env w2 + v)
                           (round_div v 60000))]
                else []),
          if isRunning s then armedWith s w2 v else withWorld s w2).
Proof.
  destruct (updateAll_returns env (world s)) as (tr1 & w1 & Hupdate).
  destruct (calculate_returns w1) as (v & tr2 & w2 & Hcalc & Hrange).
  exists tr1, w1, v, tr2, w2.
  split; [exact Hupdate|]. split; [exact Hcalc|]. split; [exact Hrange|].
  unfold runAndScheduleNext, try_catch, bind, inWorld.
  rewrite Hupdate. cbn [world]. rewrite Hcalc.
  rewrite scheduleNext_run. cbn [isRunning world].
  unfold armedWith, withWorld. cbn [isRunning world nextHandle timers
                                      monitorTimeout inflight].
  destruct (isRunning s); reflexivity.
Qed.

(** C9 (as the code has it). A failure of the account listing inside
    the update pass is caught and logged there, and the pass completes;
    the cycle then asks the planner.  Every cycle completes without
    throwing and leaves [isRunning] as it found it; when the service is
    running at the scheduling step, exactly one new timer is armed, its
    handle is stored, and its delay is the planner's result, between one
    minute and the base interval; when not running, no timer is armed.
    The planner's result is the base interval when its own listing
    fails.  An error that reaches the handler of the cycle is logged
    and, if the service is running, a timer is armed with the base
    interval. *)
Theorem C9_cycle_always_rearms_while_running :
  (forall (w w1 : World) (e : Error),
      getAllClaudeAccounts env w = (Throw e, w1) ->
      updateAllAccountsUsage env w
      = (Normal tt,
         [ELog LInfo MUpdateStart; ECall CGetAllClaudeAccounts;
          ELog LError (MUpdateAllFailed e)],
         w1))
  /\ (forall s : Service World,
        exists tr1 w1 v tr2 w2 tr,
          updateAllAccountsUsage env (world s) = (Normal tt, tr1, w1)
          /\ calculateNextInterval env w1 = (Normal v, tr2, w2)
          /\ 60000 <= v <= BASE_INTERVAL
          /\ runAndScheduleNext env s
             = (Normal tt, tr,
                if isRunning s then armedWith s w2 v else withWorld s w2))
  /\ (forall s : Service World,
        let s' := final (runAndScheduleNext env s) in
        isRunning s' = isRunning s
        /\ (isRunning s = true ->
            exists v,
              60000 <= v <= BASE_INTERVAL
              /\ timers s' = timers s ++ [(nextHandle s, v)]
              /\ monitorTimeout s' = Some (nextHandle s))
        /\ (isRunning s = false ->
            timers s' = timers s /\ monitorTimeout s' = monitorTimeout s))
  /\ (forall (w w1 : World) (e : Error),
        getAllClaudeAccounts env w = (Throw e, w1) ->
        calculateNextInterval env w
        = (Normal BASE_INTERVAL,
           [ECall CGetAllClaudeAccounts; ELog LError (MCalcError e)],
           w1))
  /\ (forall (e : Error) (s : Service World),
        onCycleError e s
        = (Normal tt,
           [ELog LError (MRunError e)],
           if isRunning s then armedWith s (world s) BASE_INTERVAL else s)).
Proof.
  split; [exact (updateAll_listing_fails env)|].
  split.
  { intros s.
    destruct (cycle_run s)
      as (tr1 & w1 & v & tr2 & w2 & Hupdate & Hcalc & Hrange & Hrun).
    exists tr1, w1, v, tr2, w2. eexists.
    split; [exact Hupdate|]. split; [exact Hcalc|].
    split; [exact Hrange|]. exact Hrun. }
  split.
  { intros s s'.
    destruct (cycle_run s)
      as (tr1 & w1 & v & tr2 & w2 & Hupdate & Hcalc & Hrange & Hrun).
    subst s'. rewrite Hrun. cbn [final snd].
    destruct (isRunning s) eqn:Hr; cbn.
    - repeat split; try assumption; try discriminate.
      intros _. exists v.
      repeat split; try reflexivity; unfold BASE_INTERVAL in *; lia.
    - repeat split; try assumption; try discriminate. }
  split; [exact calculate_listing_fails|].
  exact onCycleError_run.
Qed.

Lemma start_run (s : Service World) :
  start s
  = if isRunning s
    then (Normal tt, [ELog LWarn MAlreadyRunning], s)
    else (Normal tt,
          [ELog LInfo MStarting; ELog LSuccess MStarted],
          {| world := world s; isRunning := true;
             monitorTimeout := monitorTimeout s; timers := timers s;
             nextHandle := nextHandle s; inflight := S (inflight s) |}).
Proof.
  unfold start, bind, getIsRunning, setIsRunning, spawnCycle, logger, emit.
  destruct (isRunning s); reflexivity.
Qed.

Lemma stop_run (s : Service World) :
  stop s
  = if isRunning s
    then (Normal tt,
          [ELog LInfo MStopped],
          {| world := world s; isRunning := false;
             monitorTimeout := None;
             timers :=
               match monitorTimeout s with
               | Some h =>
                   filter (fun t => negb (Nat.eqb (fst t) h)) (timers s)
               | None => timers s
               end;
             nextHandle := nextHandle s; inflight := inflight s |})
    else (Normal tt, [ELog LWarn MNotRunning], s).
Proof.
  unfold stop, bind, getIsRunning, setIsRunning, getMonitorTimeout,
    setMonitorTimeout, clearTimeout, logger, emit, ret.
  destruct (isRunning s); cbn [negb]; [|reflexivity].
  destruct (monitorTimeout s) eqn:Hm; cbn; rewrite ?Hm; reflexivity.
Qed.

(** [start] while running and [stop] while stopped change nothing and
    log a warning; a second [stop] in a row is such a no-op. *)
Lemma start_while_running (s : Service World) :
  isRunning s = true ->
  start s = (Normal tt, [ELog LWarn MAlreadyRunning], s).
Proof. intros H. rewrite start_run, H. reflexivity. Qed.

Lemma stop_while_stopped (s : Service World) :
  isRunning s = false ->
  stop s = (Normal tt, [ELog LWarn MNotRunning], s).
Proof. intros H. rewrite stop_run, H. reflexivity. Qed.

Lemma stop_twice (s : Service World) :
  stop (final (stop s))
  = (Normal tt, [ELog LWarn MNotRunning], final (stop s)).
Proof.
  apply stop_while_stopped.
  rewrite stop_run. destruct (isRunning s) eqn:H; cbn; auto.
Qed.

(** C6 (failing run). [start(); stop(); start()] issued before the first
    cycle has reached its scheduling step leaves two cycles in flight;
    each finds [isRunning = true] and arms a timer, so two timers are
    armed while running.  A following [stop()] clears only the one whose
    handle is stored: one timer stays armed while stopped. *)
Theorem C6_restart_during_cycle_arms_two_timers (w : World) :
  let run :=
    turns env [TStart; TStop; TStart; TCycleEnds; TCycleEnds]
      (newService w) in
  let stopped := turn env TStop (final run) in
  result run = Normal tt
  /\ isRunning (final run) = true
  /\ List.length (timers (final run)) = 2%nat
  /\ ~ timerInvariant (final run)
  /\ result stopped = Normal tt
  /\ isRunning (final stopped) = false
  /\ List.length (timers (final stopped)) = 1%nat
  /\ ~ timerInvariant (final stopped).
Proof.
  intros run stopped.
  assert (Hrun :
    exists tr w' v1 v2,
      run = (Normal tt, tr,
             {| world := w'; isRunning := true; monitorTimeout := Some 1%nat;
                timers := [(0%nat, v1); (1%nat, v2)];
                nextHandle := 2%nat; inflight := 0%nat |})).
  { subst run. unfold turns, turn, bind, newService.
    rewrite start_run. cbn -[runAndScheduleNext stop start cycleEnds].
    rewrite stop_run. cbn -[runAndScheduleNext stop start cycleEnds].
    rewrite start_run. cbn -[runAndScheduleNext stop start cycleEnds].
    unfold cycleEnds at 1.
    cbn [inflight world isRunning monitorTimeout timers nextHandle].
    lazymatch goal with
    | |- context [runAndScheduleNext env ?s] =>
        pose proof (cycle_run s) as Hc
    end.
    destruct Hc as (tr1 & w1 & v1 & tr2 & w2 & _ & _ & _ & Hc1).
    rewrite Hc1. unfold armedWith, withWorld.
    cbn -[runAndScheduleNext stop start cycleEnds].
    unfold cycleEnds at 1.
    cbn [inflight world isRunning monitorTimeout timers nextHandle].
    lazymatch goal with
    | |- context [runAndScheduleNext env ?s] =>
        destruct (cycle_run s)
          as (tr3 & w3 & v2 & tr4 & w4 & _ & _ & _ & Hc2)
    end.
    rewrite Hc2. unfold armedWith, withWorld.
    cbn -[runAndScheduleNext stop start cycleEnds].
    do 4 eexists. reflexivity. }
  destruct Hrun as (tr & w' & v1 & v2 & Hrun).
  subst stopped. rewrite Hrun. cbn [final snd result fst turn].
  rewrite stop_run.
  unfold timerInvariant. cbn.
  repeat split; try reflexivity; try lia; try discriminate.
Qed.

(** *** The invariant when no cycle of an earlier run is in flight *)

Lemma singleLoop_invariant (s : Service World) :
  singleLoop s -> timerInvariant s.
Proof.
  intros [Hone Hstored]. unfold timerInvariant.
  destruct (isRunning s) eqn:Hr; [lia|].
  destruct (timers s) as [|[h ms] rest]; [reflexivity|].
  destruct (Hstored h ms (or_introl eq_refl)) as [_ Htrue]. discriminate.
Qed.

Lemma singleLoop_new (w : World) : singleLoop (newService w).
Proof.
  split; cbn; [lia|]. intros h ms [].
Qed.

Lemma filter_stored_handle (l : list (nat * Z)) (h : nat) :
  (forall h' ms, In (h', ms) l -> h' = h) ->
  filter (fun t => negb (Nat.eqb (fst t) h)) l = [].
Proof.
  induction l as [|[h' ms] l IH]; intros Hall; [reflexivity|].
  cbn [filter fst].
  rewrite (Hall h' ms (or_introl eq_refl)), Nat.eqb_refl. cbn [negb].
  apply IH. intros h2 ms2 Hin. apply (Hall h2 ms2). right. exact Hin.
Qed.

(** Every turn keeps the single loop, provided [start] is not called on
    a stopped service while a cycle is still in flight. *)
Lemma singleLoop_turn (t : Turn) (s : Service World) :
  singleLoop s ->
  (t = TStart -> isRunning s = false -> inflight s = 0%nat) ->
  singleLoop (final (turn env t s)).
Proof.
  intros Hs Hguard. pose proof Hs as [Hone Hstored].
  destruct t as [| |h|]; cbn [turn].
  - rewrite start_run.
    destruct (isRunning s) eqn:Hr; cbn [final snd]; [exact Hs|].
    specialize (Hguard eq_refl eq_refl).
    assert (Hnil : timers s = []).
    { destruct (timers s) as [|[h ms] rest]; [reflexivity|].
      destruct (Hstored h ms (or_introl eq_refl)) as [_ Htrue].
      discriminate. }
    split; cbn [inflight timers monitorTimeout isRunning].
    + rewrite Hnil, Hguard. cbn. lia.
    + rewrite Hnil. intros h ms [].
  - rewrite stop_run.
    destruct (isRunning s) eqn:Hr; cbn [final snd]; [|exact Hs].
    assert (Hnil :
      match monitorTimeout s with
      | Some h => filter (fun t => negb (Nat.eqb (fst t) h)) (timers s)
      | None => timers s
      end = []).
    { destruct (monitorTimeout s) as [h|] eqn:Hm.
      - apply filter_stored_handle. intros h' ms Hin.
        destruct (Hstored h' ms Hin) as [Heq _]. congruence.
      - destruct (timers s) as [|[h ms] rest]; [reflexivity|].
        destruct (Hstored h ms (or_introl eq_refl)) as [Heq _].
        discriminate. }
    split; cbn [inflight timers monitorTimeout isRunning]; rewrite Hnil.
    + cbn. lia.
    + intros h ms [].
  - unfold fire.
    destruct (isArmed h s) eqn:Harmed; cbn [final snd]; [|exact Hs].
    unfold isArmed in Harmed. apply existsb_exists in Harmed.
    destruct Harmed as ([h' ms] & Hin & Heq).
    cbn [fst] in Heq. apply Nat.eqb_eq in Heq. subst h'.
    destruct (timers s) as [|t1 rest] eqn:Ht; [contradiction|].
    cbn [List.length] in Hone.
    assert (rest = []) by (destruct rest; [reflexivity|cbn in Hone; lia]).
    subst rest. destruct Hin as [->|[]].
    split; cbn [inflight timers monitorTimeout isRunning filter fst].
    + rewrite Nat.eqb_refl. cbn. lia.
    + rewrite Nat.eqb_refl. cbn [negb]. intros h' ms' [].
  - unfold cycleEnds.
    destruct (inflight s) as [|n] eqn:Hn; cbn [final snd]; [exact Hs|].
    assert (Hnil : timers s = []).
    { destruct (timers s); [reflexivity|cbn in Hone; lia]. }
    assert (n = 0%nat) by lia. subst n.
    match goal with
    | |- context [runAndScheduleNext env ?s0] =>
        destruct (cycle_run s0)
          as (tr1 & w1 & v & tr2 & w2 & _ & _ & _ & Hrun)
    end.
    rewrite Hrun. cbn [final snd isRunning].
    destruct (isRunning s) eqn:Hr; unfold armedWith, withWorld;
      cbn [timers inflight isRunning monitorTimeout nextHandle];
      rewrite Hnil; split; cbn; try lia.
    intros h ms [Heq|[]]. inversion Heq; subst. auto.
Qed.

End SchedulerFacts.

(* ================================================================== *)
(** * Concrete runs *)

Section ConcreteRuns.
Import Demo.

(** The planner over a store with one active account whose two windows
    give two future trigger times. *)
Lemma C1_witness :
  (forall (i : string) (w : World),
      exists w',
        getClaudeUsageSnapshot envListingFailsOnce i w
        = (Normal (Some nearSnapshot), w'))
  /\ getAllClaudeAccounts envListingFailsOnce (tick w0)
     = (Normal [oauth "acct-1"], tick (tick w0))
  /\ result (calculateNextInterval envListingFailsOnce (tick w0))
     = Normal
         (PlannerSpec.nextInterval [oauth "acct-1"]
            (fun _ => Some nearSnapshot) 1000000).
Proof.
  assert (Hstore :
    forall (i : string) (w : World),
      exists w',
        getClaudeUsageSnapshot envListingFailsOnce i w
        = (Normal (Some nearSnapshot), w')).
  { intros i w. exists (tick w). reflexivity. }
  split; [exact Hstore|].
  split; [reflexivity|].
  exact (proj1 (proj2
           (@C1_planner_follows_algorithm World envListingFailsOnce
              (fun _ => Some nearSnapshot) Hstore
              (tick w0) (tick (tick w0)) [oauth "acct-1"] eq_refl))).
Defined.

(** The pass over three OAuth accounts in which the second fetch throws. *)
Lemma C2_witness :
  exists (initialized : Z) (tr : Trace) (w' : World),
    updateAllAccountsUsage envSecondThrows w0
    = (Normal tt,
       tr ++ [ELog LInfo (MUpdateCompleted 2 0 initialized 1 3)],
       w')
    /\ In (ECall (CFetchOAuthUsage "acct-3")) tr.
Proof.
  apply (proj2 (proj2 (proj2
           (@C2_account_failure_counted_and_pass_continues World
              envSecondThrows)))
           (oauth "acct-1") (oauth "acct-2") (oauth "acct-3")
           w0 (tick w0)).
  - reflexivity.
  - reflexivity.
  - reflexivity.
  - reflexivity.
  - intros w. exists farSnapshot, (tick w). reflexivity.
  - intros w. exists "ECONNRESET", (tick w). reflexivity.
  - intros w. exists farSnapshot, (tick w). reflexivity.
  - intros i u w. exists (tick w). reflexivity.
Defined.

(** The check on a dormant window when no token can be obtained. *)
Lemma C3_witness :
  resets_at dormant = None
  /\ exists (b : bool) (tr : Trace) (w' : World),
       triggerFiveHourInitialization envNoToken (oauth "acct-1") w0
       = (Normal b, tr, w')
       /\ checkAndResetFiveHourWindow envNoToken (oauth "acct-1") dormant w0
          = (Normal b,
             ELog LInfo (MNoResetsAt "acct-1") :: tr
               ++ [if b then ELog LSuccess (MInitialized "acct-1")
                   else ELog LWarn (MNotInitialized "acct-1")],
             w')
       /\ countEvents isProbeStart
            (events
               (checkAndResetFiveHourWindow envNoToken (oauth "acct-1")
                  dormant w0))
          = 1%nat
       /\ countEvents isRemainingTimeLog
            (events
               (checkAndResetFiveHourWindow envNoToken (oauth "acct-1")
                  dormant w0))
          = 0%nat.
Proof.
  split; [reflexivity|].
  exact (@C3_absent_resets_at_probes_once World envNoToken
           (oauth "acct-1") dormant w0 eq_refl).
Defined.

(** The check on a window that resets six minutes ahead. *)
Lemma C4_witness :
  resets_at closingWindow = Some (Instant 1360000)
  /\ (1360000 - Date_now envProbeOk w0) / 60000 <= RESET_THRESHOLD_MINUTES
  /\ checkAndResetFiveHourWindow envProbeOk (oauth "acct-1")
       closingWindow w0
     = (Normal false,
        [ELog LInfo
           (MWindowExpires "acct-1"
              ((1360000 - Date_now envProbeOk w0) / 60000)
              (or_zero (utilization closingWindow) * 100)%float
              (Math_round
                 ((1 - or_zero (utilization closingWindow)) * 100)%float))],
        w0).
Proof.
  assert (Hrem :
    (1360000 - Date_now envProbeOk w0) / 60000 <= RESET_THRESHOLD_MINUTES).
  { vm_compute. discriminate. }
  split; [reflexivity|].
  split; [exact Hrem|].
  exact (proj1 (@C4_impending_reset_is_only_logged World envProbeOk)
           (oauth "acct-1") closingWindow w0 1360000 eq_refl Hrem).
Defined.


(** C7 fails as stated: two accounts are processed (both skipped) and no
    delay is waited between or after them; and after a skipped account
    the next account's usage is fetched with no delay in between. *)
Lemma C7_no_delay_after_skipped_account :
  updateLoop envProbeOk twoSkipped zeroCounters w0
  = (Normal {| successCount := 0; skipCount := 2;
               initCount := 0; failureCount := 0 |},
     [], w0)
  /\ hd_error
       (events (updateLoop envProbeOk skippedThenOAuth zeroCounters w0))
     = Some (ECall (CFetchOAuthUsage "acct-1"))
  /\ countEvents isInterAccountDelay
       (events (updateLoop envProbeOk skippedThenOAuth zeroCounters w0))
     = 1%nat.
Proof.
  split; [|split]; vm_compute; reflexivity.
Qed.

(** The loop over two OAuth accounts: one delay after the first. *)
Lemma C7_witness :
  eligible (oauth "acct-1") = true
  /\ exists c1 tr1 w1,
       tryRefresh envProbeOk (oauth "acct-1") zeroCounters w0
       = (Normal c1, tr1, w1)
       /\ countEvents isInterAccountDelay tr1 = 0%nat
       /\ let next :=
            updateLoop envProbeOk [oauth "acct-2"] c1
              (elapse envProbeOk 1000 w1) in
          updateLoop envProbeOk [oauth "acct-1"; oauth "acct-2"]
            zeroCounters w0
          = (result next, tr1 ++ EDelay 1000 :: events next, final next).
Proof.
  split; [reflexivity|].
  exact (proj1 (@C7_delay_after_each_eligible_account World envProbeOk)
           (oauth "acct-1") [oauth "acct-2"] zeroCounters w0 eq_refl).
Defined.

(** C8 fails as stated: two passes with different counts both hand
    [undefined] to their caller, so no reading of the returned value
    gives the counts; they appear in the last log line only. *)
Lemma C8_pass_returns_undefined :
  result (updateAllAccountsUsage envSecondThrows w0) = Normal tt
  /\ result (updateAllAccountsUsage envProbeOk w0) = Normal tt
  /\ last (events (updateAllAccountsUsage envSecondThrows w0))
       (ELog LInfo MUpdateStart)
     = ELog LInfo (MUpdateCompleted 2 0 0 1 3)
  /\ last (events (updateAllAccountsUsage envProbeOk w0))
       (ELog LInfo MUpdateStart)
     = ELog LInfo (MUpdateCompleted 1 0 0 0 1)
  /\ ~ (exists decode : outcome unit -> Z * Z * Z * Z * Z,
          decode (result (updateAllAccountsUsage envSecondThrows w0))
          = (2, 0, 0, 1, 3)
          /\ decode (result (updateAllAccountsUsage envProbeOk w0))
             = (1, 0, 0, 0, 1)).
Proof.
  assert (H1 : result (updateAllAccountsUsage envSecondThrows w0)
               = Normal tt) by (vm_compute; reflexivity).
  assert (H2 : result (updateAllAccountsUsage envProbeOk w0)
               = Normal tt) by (vm_compute; reflexivity).
  split; [exact H1|]. split; [exact H2|].
  split; [vm_compute; reflexivity|].
  split; [vm_compute; reflexivity|].
  intros (decode & Hd1 & Hd2).
  rewrite H1 in Hd1. rewrite H2 in Hd2. congruence.
Qed.

(** The counts of the pass over three accounts, as logged. *)
Lemma C8_witness :
  getAllClaudeAccounts envSecondThrows w0 = (Normal threeAccounts, tick w0)
  /\ fst (PassSpec.outcomes envSecondThrows threeAccounts (tick w0))
     = [PassSpec.Refreshed false; PassSpec.Failed; PassSpec.Refreshed false]
  /\ exists c tr w',
       updateLoop envSecondThrows threeAccounts zeroCounters (tick w0)
       = (Normal c, tr, w')
       /\ updateAllAccountsUsage envSecondThrows w0
          = (Normal tt,
             ELog LInfo MUpdateStart :: ECall CGetAllClaudeAccounts :: tr
               ++ [ELog LInfo
                     (MUpdateCompleted (successCount c) (skipCount c)
                        (initCount c) (failureCount c)
                        (Z.of_nat (List.length threeAccounts)))],
             w')
       /\ successCount c = Z.of_nat (countEvents isUpdatedLog tr)
       /\ skipCount c
          = Z.of_nat
              (List.length
                 (filter (fun a => negb (eligible a)) threeAccounts))
       /\ initCount c = Z.of_nat (countEvents isInitializedLog tr)
       /\ failureCount c = Z.of_nat (countEvents isFailureLog tr)
       /\ successCount c + skipCount c + failureCount c
          = Z.of_nat (List.length threeAccounts)
       /\ (let os :=
             fst (PassSpec.outcomes envSecondThrows threeAccounts (tick w0)) in
           List.length os = List.length threeAccounts
           /\ successCount c
              = Z.of_nat (PassSpec.countOutcomes PassSpec.isRefreshed os)
           /\ skipCount c
              = Z.of_nat (PassSpec.countOutcomes PassSpec.isSkipped os)
           /\ initCount c
              = Z.of_nat (PassSpec.countOutcomes PassSpec.isInitialized os)
           /\ failureCount c
              = Z.of_nat (PassSpec.countOutcomes PassSpec.isFailed os))
       /\ w' = snd (PassSpec.outcomes envSecondThrows threeAccounts (tick w0))
       /\ (forall a,
             In a threeAccounts -> eligible a = true ->
             In (ECall (CFetchOAuthUsage (id a))) tr).
Proof.
  split; [reflexivity|].
  split; [vm_compute; reflexivity|].
  exact (proj1 (proj2
           (@C8_counts_are_logged_not_returned World envSecondThrows))
           w0 (tick w0) threeAccounts eq_refl).
Defined.

(** C9 fails as stated: the listing fails inside the update pass, yet
    the cycle arms its timer with the interval the planner computed
    (two minutes), not with the base interval. *)
Lemma C9_listing_failure_keeps_computed_interval :
  In (ELog LError (MUpdateAllFailed "redis: connection lost"))
     (events (runAndScheduleNext envListingFailsOnce running))
  /\ result (runAndScheduleNext envListingFailsOnce running) = Normal tt
  /\ isRunning (final (runAndScheduleNext envListingFailsOnce running))
     = true
  /\ timers (final (runAndScheduleNext envListingFailsOnce running))
     = [(0%nat, 120000)]
  /\ 120000 <> BASE_INTERVAL.
Proof.
  split; [vm_compute; tauto|].
  repeat split; try (vm_compute; reflexivity).
  vm_compute. discriminate.
Qed.

(** A listing that fails inside the update pass of a running service. *)
Lemma C9_witness :
  getAllClaudeAccounts envListingFailsOnce w0
  = (Throw "redis: connection lost", tick w0)
  /\ updateAllAccountsUsage envListingFailsOnce w0
     = (Normal tt,
        [ELog LInfo MUpdateStart; ECall CGetAllClaudeAccounts;
         ELog LError (MUpdateAllFailed "redis: connection lost")],
        tick w0)
  /\ (isRunning running = true ->
      exists v,
        60000 <= v <= BASE_INTERVAL
        /\ timers (final (runAndScheduleNext envListingFailsOnce running))
           = timers running ++ [(nextHandle running, v)]
        /\ monitorTimeout
             (final (runAndScheduleNext envListingFailsOnce running))
           = Some (nextHandle running)).
Proof.
  split; [reflexivity|].
  split.
  - exact (proj1
             (@C9_cycle_always_rearms_while_running World
                envListingFailsOnce)
             w0 (tick w0) "redis: connection lost" eq_refl).
  - exact (proj1 (proj2 (proj1 (proj2 (proj2
             (@C9_cycle_always_rearms_while_running World
                envListingFailsOnce))) running))).
Defined.


End ConcreteRuns.

(* ================================================================== *)
(** * Further properties of the probe and the window check *)

Section ProbeDiscipline.
Context {World : Type} (env : Env World).

Ltac unfold_probe_run :=
  unfold triggerFiveHourInitialization, triggerBody;
  unfold bind, try_catch, ret, logger, emit, await, delay, lift_outcome.

Ltac each_event :=
  repeat (first [apply Forall_nil | apply Forall_cons]).

(** The calls of one run of the probe, counted. *)
Lemma trigger_discipline (account : Account) (w : World) :
  let tr := events (triggerFiveHourInitialization env account w) in
  (countEvents isRequest tr <= 1)%nat
  /\ (countEvents isUsageFetch tr <= countEvents isRequest tr)%nat
  /\ (countEvents isPersist tr <= countEvents isUsageFetch tr)%nat
  /\ Forall (fun e => concerns (id account) e = true) tr.
Proof.
  unfold_probe_run.
  repeat step_match; cbn [events fst snd app];
    (split; [cbn; lia|]); (split; [cbn; lia|]); (split; [cbn; lia|]);
    each_event; cbn; rewrite ?String.eqb_refl; reflexivity.
Qed.

(** X1. Whatever the collaborators answer, the calls of one run of the
    probe come in one order: the token call, the egress call, the request,
    the wait of 2000 ms, the re-fetch of usage, the persist; none of them
    occurs twice, none without all the earlier ones, and no other call or
    delay occurs.  So the probe sends at most one request, re-fetches
    usage only after the request and the wait, and persists only after
    the re-fetch.  A request it sends is the fixed minimal request with
    the monitor's client header, made with a non-empty token for this
    account; a snapshot it persists has its five-hour [resets_at]
    populated; and every call it makes is made for this account. *)
Theorem X1_probe_calls_are_disciplined (account : Account) (w : World) :
  let tr := events (triggerFiveHourInitialization env account w) in
  (countEvents isRequest tr <= 1)%nat
  /\ (countEvents isUsageFetch tr <= countEvents isRequest tr)%nat
  /\ (countEvents isPersist tr <= countEvents isUsageFetch tr)%nat
  /\ Forall (requestAsBuilt account) tr
  /\ Forall (persistConfirmed account) tr
  /\ Forall (fun e => concerns (id account) e = true) tr
  /\ exists stage, probeOrder 0 tr = Some stage.
Proof.
  unfold_probe_run.
  repeat step_match; cbn [events fst snd app];
    (split; [cbn; lia|]); (split; [cbn; lia|]); (split; [cbn; lia|]);
    (split; [|split; [|split]]); each_event;
    try (unfold requestAsBuilt;
         let Hev := fresh "Hev" in
         intros ? ? ? ? ? Hev; inversion Hev; subst;
         repeat split; try reflexivity;
         apply String.eqb_neq; assumption);
    try (unfold persistConfirmed;
         let Hev := fresh "Hev" in
         intros ? ? Hev; inversion Hev; subst;
         (split; [reflexivity|congruence]));
    try (cbn; rewrite ?String.eqb_refl; reflexivity);
    try (cbn; eexists; reflexivity).
Qed.


(** X2. For a five-hour window whose [resets_at] is an instant, the
    impending-reset line is logged exactly when the reset is less than
    eleven minutes ahead of the clock (the minutes are rounded down before
    they are compared with ten), which includes every instant already
    past; from eleven minutes on the check is silent.  In both cases it
    returns false, makes no call and leaves the world as it was. *)
Theorem X2_reset_line_iff_under_eleven_minutes
    (account : Account) (fiveHourData : UsageWindow) (w : World) (t : Z)
    (Hpresent : resets_at fiveHourData = Some (Instant t)) :
  (t - Date_now env w < 660000 ->
   exists m pct quota,
     m <= 10
     /\ checkAndResetFiveHourWindow env account fiveHourData w
        = (Normal false,
           [ELog LInfo (MWindowExpires (name account) m pct quota)], w))
  /\ (660000 <= t - Date_now env w ->
      checkAndResetFiveHourWindow env account fiveHourData w
      = (Normal false, [], w)).
Proof.
  rewrite (check_present env account fiveHourData w Hpresent).
  cbn [getTime]. cbv zeta. unfold RESET_THRESHOLD_MINUTES.
  split.
  - intros Hnear.
    assert (Hm : (t - Date_now env w) / 60000 < 11)
      by (apply Z.div_lt_upper_bound; lia).
    assert (Hle : ((t - Date_now env w) / 60000 <=? 10) = true)
      by (apply Z.leb_le; lia).
    rewrite Hle. do 3 eexists. split; [|reflexivity]. lia.
  - intros Hfar.
    assert (Hm : 11 <= (t - Date_now env w) / 60000)
      by (apply Z.div_le_lower_bound; lia).
    assert (Hgt : ((t - Date_now env w) / 60000 <=? 10) = false)
      by (apply Z.leb_gt; lia).
    rewrite Hgt. reflexivity.
Qed.


End ProbeDiscipline.

(* ================================================================== *)
(** * Further properties of the update pass *)

Section PassDiscipline.
Context {World : Type} (env : Env World).

Lemma concerns_call (i : string) (e : Event) :
  isCall e = true -> concerns i e = true -> callAccount e = Some i.
Proof.
  destruct e as [c|l m|ms]; try discriminate.
  destruct c; cbn; intros _ H; try discriminate;
    apply String.eqb_eq in H; subst; reflexivity.
Qed.

(** The calls of the window check. *)
Lemma check_discipline (account : Account) (fiveHourData : UsageWindow)
    (w : World) :
  let tr := events (checkAndResetFiveHourWindow env account fiveHourData w) in
  (countEvents isRequest tr <= 1)%nat
  /\ (countEvents isPersist tr <= countEvents isUsageFetch tr)%nat
  /\ Forall (fun e => concerns (id account) e = true) tr.
Proof.
  destruct (resets_at fiveHourData) as [ts|] eqn:Hr.
  - rewrite (check_present env account fiveHourData w Hr).
    cbn [events fst snd].
    destruct (getTime ts) as [resetsAt|]; cbv zeta;
      [destruct (_ <=? _)|]; cbn; repeat split; auto.
  - destruct (trigger_returns env account w) as (b & tr0 & w0 & Hprobe).
    pose proof (trigger_discipline env account w) as Hd.
    rewrite Hprobe in Hd. cbn [events fst snd] in Hd.
    destruct Hd as (Hreq & Hfetch & Hpersist & Hconc).
    rewrite (@check_absent World env account fiveHourData w w0 b tr0
               Hr Hprobe).
    cbn [events fst snd].
    change (ELog LInfo (MNoResetsAt (name account)) :: tr0 ++ ?x)
      with ([ELog LInfo (MNoResetsAt (name account))] ++ tr0 ++ x).
    rewrite !countEvents_app.
    split; [destruct b; cbn; lia|].
    split; [destruct b; cbn; lia|].
    apply Forall_app. split; [repeat constructor|].
    apply Forall_app. split; [exact Hconc|].
    destruct b; repeat constructor.
Qed.

(** The calls made for one eligible account. *)
Lemma tryRefresh_discipline (account : Account) (c : Counters) (w : World) :
  let tr := events (tryRefresh env account c w) in
  (countEvents isRequest tr <= 1)%nat
  /\ (countEvents isPersist tr <= countEvents isUsageFetch tr)%nat
  /\ (countEvents isInitializedLog tr <= countEvents isUpdatedLog tr)%nat
  /\ Forall (fun e => concerns (id account) e = true) tr.
Proof.
  unfold tryRefresh, refreshAccount.
  unfold bind, try_catch, ret, logger, emit, await.
  destruct (fetchOAuthUsage env (id account) w) as [[[u|]|e] w1].
  - destruct (updateClaudeUsageSnapshot env (id account) u w1)
      as [[[]|e] w2].
    + destruct (five_hour u) as [win|].
      * destruct (check_returns env account win w2)
          as (b & tr & w3 & Hrun & _ & _ & Hi & _).
        pose proof (check_discipline account win w2) as Hd.
        rewrite Hrun in Hd. cbn [events fst snd] in Hd.
        destruct Hd as (Hreq & Hpersist & Hconc).
        rewrite Hrun. cbn [events fst snd app].
        change (?a :: ?b :: (tr ++ []) ++ ?x)
          with ([a; b] ++ (tr ++ []) ++ x).
        rewrite app_nil_r, !countEvents_app, Hi.
        split; [cbn; lia|]. split; [cbn; lia|].
        split; [destruct b; cbn; lia|].
        apply Forall_app. split.
        { repeat constructor; cbn; apply String.eqb_refl. }
        apply Forall_app. split; [exact Hconc|repeat constructor].
      * cbn. repeat split; try lia.
        repeat constructor; cbn; apply String.eqb_refl.
    + cbn. repeat split; try lia.
      repeat constructor; cbn; apply String.eqb_refl.
  - cbn. repeat split; try lia.
    repeat constructor; cbn; apply String.eqb_refl.
  - cbn. repeat split; try lia.
    repeat constructor; cbn; apply String.eqb_refl.
Qed.

(** The calls of the loop over the accounts. *)
Lemma updateLoop_discipline (accounts : list Account) (c : Counters)
    (w : World) :
  let tr := events (updateLoop env accounts c w) in
  (countEvents isRequest tr <= List.length (filter eligible accounts))%nat
  /\ (countEvents isPersist tr <= countEvents isUsageFetch tr)%nat
  /\ (countEvents isInitializedLog tr <= countEvents isUpdatedLog tr)%nat
  /\ forall e,
       In e tr -> isCall e = true ->
       exists a,
         In a accounts /\ eligible a = true /\ callAccount e = Some (id a).
Proof.
  revert c w.
  induction accounts as [|a rest IH]; intros c w.
  - cbn. repeat split; try lia; try contradiction.
  - cbn [filter]. destruct (eligible a) eqn:Hel.
    + destruct (tryRefresh_step env a c w)
        as (c1 & tr1 & w1 & Hstep & _).
      pose proof (tryRefresh_discipline a c w) as Hd.
      rewrite Hstep in Hd. cbn [events fst snd] in Hd.
      destruct Hd as (Hreq & Hpersist & Hinit & Hconc).
      destruct (updateLoop env rest c1 (elapse env 1000 w1))
        as [[r tr2] w2] eqn:Hrest.
      specialize (IH c1 (elapse env 1000 w1)).
      rewrite Hrest in IH. cbn [events fst snd] in IH.
      destruct IH as (Hreq2 & Hpersist2 & Hinit2 & Hcalls2).
      rewrite (updateLoop_step env a rest c w Hel Hstep Hrest).
      cbn [events fst snd].
      change (tr1 ++ EDelay 1000 :: tr2) with (tr1 ++ [EDelay 1000] ++ tr2).
      rewrite !countEvents_app. cbn [List.length].
      split; [cbn; lia|]. split; [cbn; lia|]. split; [cbn; lia|].
      intros e Hin Hcall.
      apply in_app_or in Hin. destruct Hin as [Hin|Hin].
      * exists a. split; [left; reflexivity|]. split; [exact Hel|].
        apply concerns_call; [exact Hcall|].
        rewrite Forall_forall in Hconc. exact (Hconc e Hin).
      * apply in_app_or in Hin. destruct Hin as [[<-|[]]|Hin];
          [discriminate|].
        destruct (Hcalls2 e Hin Hcall) as (a' & Ha' & Hel' & Hacc).
        exists a'. split; [right; exact Ha'|]. split; assumption.
    + rewrite (updateLoop_skipped env a rest c w Hel).
      destruct (IH (incSkip c) w) as (Hreq2 & Hpersist2 & Hinit2 & Hcalls2).
      split; [exact Hreq2|]. split; [exact Hpersist2|].
      split; [exact Hinit2|].
      intros e Hin Hcall.
      destruct (Hcalls2 e Hin Hcall) as (a' & Ha' & Hel' & Hacc).
      exists a'. split; [right; exact Ha'|]. split; assumption.
Qed.

(** X4. Every collaborator call the loop of the update pass makes is made
    for an account of the list that is eligible (active and carrying both
    OAuth scopes): for a skipped account nothing is fetched, persisted,
    requested or probed. *)
Theorem X4_pass_calls_only_for_eligible_accounts
    (accounts : list Account) (c : Counters) (w : World) (e : Event) :
  In e (events (updateLoop env accounts c w)) ->
  isCall e = true ->
  exists a,
    In a accounts /\ eligible a = true /\ callAccount e = Some (id a).
Proof.
  destruct (updateLoop_discipline accounts c w) as (_ & _ & _ & Hcalls).
  exact (Hcalls e).
Qed.

(** X5. In the completion line of an update pass, the counters are
    non-negative, initialized never exceeds success, and success plus
    failed is the number of eligible accounts listed. *)
Theorem X5_completion_counts_are_consistent
    (w w1 : World) (accounts : list Account)
    (Hlist : getAllClaudeAccounts env w = (Normal accounts, w1)) :
  exists c tr w',
    updateAllAccountsUsage env w
    = (Normal tt,
       ELog LInfo MUpdateStart :: ECall CGetAllClaudeAccounts :: tr
         ++ [ELog LInfo
               (MUpdateCompleted (successCount c) (skipCount c)
                  (initCount c) (failureCount c)
                  (Z.of_nat (List.length accounts)))],
       w')
    /\ 0 <= initCount c <= successCount c
    /\ 0 <= failureCount c
    /\ 0 <= skipCount c
    /\ successCount c + failureCount c
       = Z.of_nat (List.length (filter eligible accounts)).
Proof.
  destruct (updateLoop_counts env accounts zeroCounters w1)
    as (c & tr & w' & Hrun & Hs & Hf & Hi & Hk & Hn & _).
  pose proof (updateLoop_discipline accounts zeroCounters w1) as Hd.
  rewrite Hrun in Hd. cbn [events fst snd] in Hd.
  destruct Hd as (_ & _ & Hinit & _).
  cbn [zeroCounters successCount failureCount skipCount initCount] in *.
  exists c, tr, w'.
  split; [exact (updateAll_listed env w Hlist Hrun)|].
  repeat split; lia.
Qed.

(** X6. The trace of the loop of the update pass is, account by account
    in the order listed, the events of each eligible account followed by
    the one-second delay; within the events of one account at most one
    probe request is sent, no more snapshots are persisted than were
    fetched, and every call is made for that account.  So at most one
    probe request is sent per eligible account, and in all no more than
    there are eligible accounts. *)
Theorem X6_pass_requests_bounded_by_eligible_accounts
    (accounts : list Account) (c : Counters) (w : World) :
  let tr := events (updateLoop env accounts c w) in
  (countEvents isRequest tr <= List.length (filter eligible accounts))%nat
  /\ (countEvents isPersist tr <= countEvents isUsageFetch tr)%nat
  /\ exists segments : list Trace,
       Forall2 accountSegment (filter eligible accounts) segments
       /\ tr = flat_map (fun seg => seg ++ [EDelay 1000]) segments.
Proof.
  destruct (updateLoop_discipline accounts c w) as (Hreq & Hpersist & _).
  split; [exact Hreq|]. split; [exact Hpersist|].
  clear Hreq Hpersist. revert c w.
  induction accounts as [|a rest IH]; intros c w.
  - exists []. split; [constructor|reflexivity].
  - cbn [filter]. destruct (eligible a) eqn:Hel.
    + destruct (tryRefresh_step env a c w)
        as (c1 & tr1 & w1 & Hstep & _ & _ & _ & _ & _ & Hdelay & _).
      pose proof (tryRefresh_discipline a c w) as Hd.
      rewrite Hstep in Hd. cbn [events fst snd] in Hd.
      destruct Hd as (Hreq & Hpersist & _ & Hconc).
      destruct (IH c1 (elapse env 1000 w1)) as (segments & Hsegs & Htr).
      destruct (updateLoop env rest c1 (elapse env 1000 w1))
        as [[r tr2] w2] eqn:Hrest.
      cbn [events fst snd] in Htr.
      rewrite (updateLoop_step env a rest c w Hel Hstep Hrest).
      cbn [events fst snd].
      exists (tr1 :: segments). split.
      * constructor; [|exact Hsegs].
        unfold accountSegment. repeat split; assumption.
      * cbn [flat_map]. rewrite Htr, <- app_assoc. reflexivity.
    + rewrite (updateLoop_skipped env a rest c w Hel).
      exact (IH (incSkip c) w).
Qed.

End PassDiscipline.

(* ================================================================== *)
(** * Further properties of the planner *)

Section PlannerDiscipline.
Context {World : Type} (env : Env World).

Lemma collect_reads_only (accounts : list Account) (now : Z)
    (acc : list ScheduleEntry) (w : World) :
  forallb isReadOrLog (events (collectResetTimes env accounts now acc w))
  = true.
Proof.
  revert acc w.
  induction accounts as [|a rest IH]; intros acc w; [reflexivity|].
  cbn [collectResetTimes].
  destruct (String.eqb (isActive a) "true"); cbn [negb]; [|apply IH].
  unfold bind, await.
  destruct (getClaudeUsageSnapshot env (id a) w) as [[[snap|]|e] w1];
    [| |reflexivity].
  - specialize (IH (acc ++ windowEntry a now (five_hour snap) W5h
                        ++ windowEntry a now (seven_day snap) W7d) w1).
    destruct (collectResetTimes env rest now _ w1) as [[r tr] w2].
    exact IH.
  - specialize (IH acc w1).
    destruct (collectResetTimes env rest now acc w1) as [[r tr] w2].
    exact IH.
Qed.

(** X7. Whatever the collaborators answer or throw, the planner returns
    normally, its result lies between one minute and the base interval of
    twenty minutes, and all it does is read the store and log: it fetches
    nothing from the provider, sends no request, persists nothing and
    waits for no delay. *)
Theorem X7_planner_total_bounded_and_read_only (w : World) :
  exists v tr w',
    calculateNextInterval env w = (Normal v, tr, w')
    /\ 60000 <= v <= 1200000
    /\ forallb isReadOrLog tr = true.
Proof.
  unfold calculateNextInterval, bind, try_catch, logger, emit, await, ret,
    now_ms.
  destruct (getAllClaudeAccounts env w) as [[accounts|e] w1].
  - pose proof (collect_reads_only accounts (Date_now env w1) [] w1) as Hro.
    destruct (collectResetTimes env accounts (Date_now env w1) [] w1)
      as [[[l|e] tr] w2]; cbn [events fst snd] in Hro.
    + rewrite chooseInterval_run.
      do 3 eexists. split; [reflexivity|].
      split.
      * unfold BASE_INTERVAL.
        destruct (sortEntries l) as [|nearest rest]; [lia|].
        destruct (resetTime nearest - Date_now env w1 <? 20 * 60 * 1000)
          eqn:Hlt; [apply Z.ltb_lt in Hlt|]; lia.
      * cbn [app forallb isReadOrLog andb].
        rewrite forallb_app, Hro. reflexivity.
    + do 3 eexists. split; [reflexivity|].
      split; [unfold BASE_INTERVAL; lia|].
      cbn [app forallb isReadOrLog andb].
      rewrite forallb_app, Hro. reflexivity.
  - do 3 eexists. split; [reflexivity|].
    split; [unfold BASE_INTERVAL; lia|reflexivity].
Qed.

(** The collecting loop stops at the first read that throws. *)
Lemma collect_throws (stored : string -> option UsageSnapshot)
    (bad : string)
    (Hgood : forall i w, i <> bad ->
               exists w',
                 getClaudeUsageSnapshot env i w = (Normal (stored i), w'))
    (Hbad : forall w, exists e w',
               getClaudeUsageSnapshot env bad w = (Throw e, w'))
    (accounts : list Account) (a : Account) (now : Z)
    (acc : list ScheduleEntry) (w : World) :
  In a accounts -> isActive a = "true" -> id a = bad ->
  exists e tr w',
    collectResetTimes env accounts now acc w = (Throw e, tr, w').
Proof.
  intros Hin Hactive Hid. revert acc w.
  induction accounts as [|x rest IH]; intros acc w; [contradiction|].
  cbn [collectResetTimes].
  destruct (String.eqb (isActive x) "true") eqn:Hx; cbn [negb].
  - unfold bind, await.
    destruct (string_dec (id x) bad) as [Heq|Hne].
    + destruct (Hbad w) as (e & w1 & Hread).
      rewrite Heq, Hread. eauto.
    + destruct (Hgood (id x) w Hne) as (w1 & Hread).
      rewrite Hread.
      assert (Hrest : In a rest).
      { destruct Hin as [->|Hin]; [congruence|exact Hin]. }
      destruct (stored (id x)) as [snap|].
      * destruct (IH Hrest
                    (acc ++ windowEntry x now (five_hour snap) W5h
                         ++ windowEntry x now (seven_day snap) W7d) w1)
          as (e & tr & w' & Hrun).
        rewrite Hrun. eauto.
      * destruct (IH Hrest acc w1) as (e & tr & w' & Hrun).
        rewrite Hrun. eauto.
  - assert (Hrest : In a rest).
    { destruct Hin as [->|Hin]; [|exact Hin].
      rewrite Hactive in Hx. discriminate. }
    apply (IH Hrest).
Qed.

(** X8. If the read of the snapshot of some active account throws (the
    reads for the other accounts answering), the planner discards every
    candidate it had collected and returns the base interval, logging the
    error. *)
Theorem X8_planner_base_interval_when_a_read_throws
    (stored : string -> option UsageSnapshot) (bad : string)
    (w w1 : World) (accounts : list Account) (a : Account)
    (Hlist : getAllClaudeAccounts env w = (Normal accounts, w1))
    (Hgood : forall i w, i <> bad ->
               exists w',
                 getClaudeUsageSnapshot env i w = (Normal (stored i), w'))
    (Hbad : forall w, exists e w',
               getClaudeUsageSnapshot env bad w = (Throw e, w'))
    (Hin : In a accounts) (Hactive : isActive a = "true")
    (Hid : id a = bad) :
  exists e tr w',
    calculateNextInterval env w
    = (Normal BASE_INTERVAL, tr ++ [ELog LError (MCalcError e)], w').
Proof.
  destruct (collect_throws stored Hgood Hbad accounts a (Date_now env w1)
              [] w1 Hin Hactive Hid) as (e & tr & w' & Hrun).
  exists e, (ECall CGetAllClaudeAccounts :: tr), w'.
  unfold calculateNextInterval, bind, try_catch, logger, emit, await, ret,
    now_ms.
  rewrite Hlist, Hrun. cbn [app]. reflexivity.
Qed.

Lemma minimum_least (t : Z) (ts : list Z) :
  In (PlannerSpec.minimum t ts) (t :: ts)
  /\ forall x, In x (t :: ts) -> PlannerSpec.minimum t ts <= x.
Proof.
  unfold PlannerSpec.minimum.
  induction ts as [|a ts [IHin IHle]]; cbn [fold_right].
  - split; [left; reflexivity|]. intros x [<-|[]]. lia.
  - split.
    + destruct (Z.min_spec a (fold_right Z.min t ts)) as [[_ ->]|[_ ->]].
      * right. left. reflexivity.
      * destruct IHin as [Heq|Hin]; [left; exact Heq|right; right; exact Hin].
    + intros x [Hx|[Hx|Hin]].
      * specialize (IHle x (or_introl Hx)). lia.
      * lia.
      * specialize (IHle x (or_intror Hin)). lia.
Qed.

Lemma filter_permutation {A : Type} (f : A -> bool) (l l' : list A) :
  Permutation l l' -> Permutation (filter f l) (filter f l').
Proof.
  induction 1 as [|x l l' _ IH|x y l|l l' l'' _ IH1 _ IH2]; cbn [filter].
  - constructor.
  - destruct (f x); [constructor|]; exact IH.
  - destruct (f x), (f y); try apply Permutation_refl.
    apply perm_swap.
  - exact (Permutation_trans IH1 IH2).
Qed.

(** The specified interval does not depend on the order of the accounts. *)
Lemma nextInterval_permutation (accounts accounts' : list Account)
    (stored : string -> option UsageSnapshot) (now : Z) :
  Permutation accounts accounts' ->
  PlannerSpec.nextInterval accounts stored now
  = PlannerSpec.nextInterval accounts' stored now.
Proof.
  intros Hperm.
  assert (Hc : Permutation (PlannerSpec.candidates accounts stored now)
                           (PlannerSpec.candidates accounts' stored now)).
  { unfold PlannerSpec.candidates. apply filter_permutation.
    apply Permutation_flat_map. exact Hperm. }
  unfold PlannerSpec.nextInterval.
  destruct (PlannerSpec.candidates accounts stored now) as [|t ts];
    destruct (PlannerSpec.candidates accounts' stored now) as [|t' ts'].
  - reflexivity.
  - apply Permutation_nil in Hc. discriminate.
  - apply Permutation_sym, Permutation_nil in Hc. discriminate.
  - cbv zeta.
    destruct (minimum_least t ts) as [Hin Hle].
    destruct (minimum_least t' ts') as [Hin' Hle'].
    assert (Heq : PlannerSpec.minimum t ts = PlannerSpec.minimum t' ts').
    { pose proof (Hle' _ (Permutation_in _ Hc Hin)).
      pose proof (Hle _ (Permutation_in _ (Permutation_sym Hc) Hin')).
      lia. }
    rewrite Heq. reflexivity.
Qed.

Section StoredSnapshots.
Variable stored : string -> option UsageSnapshot.
Hypothesis Hstore :
  forall (i : string) (w : World),
    exists w', getClaudeUsageSnapshot env i w = (Normal (stored i), w').

Lemma calculate_meets_spec (w w1 : World) (accounts : list Account)
    (Hlist : getAllClaudeAccounts env w = (Normal accounts, w1)) :
  result (calculateNextInterval env w)
  = Normal (PlannerSpec.nextInterval accounts stored (Date_now env w1)).
Proof.
  destruct (calculate_over_store env stored Hstore w Hlist)
    as (tr & w' & Hrun).
  rewrite Hrun. cbn [result fst].
  pose proof (sortEntries_head_time
                (entriesOf accounts stored (Date_now env w1))) as Hhead.
  rewrite entriesOf_times in Hhead.
  unfold PlannerSpec.nextInterval.
  destruct (sortEntries (entriesOf accounts stored (Date_now env w1)))
    as [|nearest rest];
    destruct (PlannerSpec.candidates accounts stored (Date_now env w1))
      as [|t ts]; try contradiction.
  - reflexivity.
  - cbv zeta. rewrite <- Hhead. reflexivity.
Qed.

(** X9. Over the same persisted snapshots and at the same clock time, the
    planner's result does not depend on the order in which the accounts
    are listed. *)
Theorem X9_planner_result_independent_of_listing_order
    (w w1 v v1 : World) (accounts accounts' : list Account)
    (Hw : getAllClaudeAccounts env w = (Normal accounts, w1))
    (Hv : getAllClaudeAccounts env v = (Normal accounts', v1))
    (Hperm : Permutation accounts accounts')
    (Hclock : Date_now env w1 = Date_now env v1) :
  result (calculateNextInterval env w) = result (calculateNextInterval env v).
Proof.
  rewrite (calculate_meets_spec w Hw), (calculate_meets_spec v Hv).
  rewrite Hclock.
  rewrite (nextInterval_permutation stored (Date_now env v1) Hperm).
  reflexivity.
Qed.

End StoredSnapshots.

End PlannerDiscipline.

(* ================================================================== *)
(** * Further properties of the scheduler *)

Section SchedulerDiscipline.
Context {World : Type} (env : Env World).

(** X10. In every state reached from a fresh service by turns of the event
    loop in which [start] is never called on a stopped service while a
    cycle is still in flight, at most one timer is armed while running and
    none while stopped; cycles in flight and armed timers together are at
    most one, and an armed timer is the one whose handle is stored. *)
Theorem X10_single_timer_without_restart_in_flight (s : Service World)
    (Hsafe : SafeRun env s) :
  timerInvariant s
  /\ (inflight s + List.length (timers s) <= 1)%nat
  /\ forall h ms,
       In (h, ms) (timers s) ->
       monitorTimeout s = Some h /\ isRunning s = true.
Proof.
  assert (Hsingle : singleLoop s).
  { induction Hsafe as [w|s t _ IH Hguard].
    - apply singleLoop_new.
    - apply singleLoop_turn; assumption. }
  split; [exact (singleLoop_invariant Hsingle)|exact Hsingle].
Qed.

Lemma cleared_not_armed (l : list (nat * Z)) (h : nat) :
  existsb (fun t => Nat.eqb (fst t) h)
    (filter (fun t => negb (Nat.eqb (fst t) h)) l) = false.
Proof.
  induction l as [|[h' ms] l IH]; [reflexivity|].
  cbn [filter fst]. destruct (Nat.eqb h' h) eqn:Heq; cbn [negb]; [exact IH|].
  cbn [existsb fst]. rewrite Heq, IH. reflexivity.
Qed.

(** X11. After [start] the status reports running and after [stop] it
    reports stopped, whatever the state before; a second [start], or a
    second [stop], in a row changes nothing; [start] arms no timer; and
    [stop] on a running service disarms the timer whose handle is stored
    and forgets the handle. *)
Theorem X11_start_and_stop_are_idempotent (s : Service World) :
  getStatus (final (start s)) = (true, 1200000, 5, 10)
  /\ getStatus (final (stop s)) = (false, 1200000, 5, 10)
  /\ final (start (final (start s))) = final (start s)
  /\ final (stop (final (stop s))) = final (stop s)
  /\ timers (final (start s)) = timers s
  /\ (isRunning s = true -> monitorTimeout (final (stop s)) = None)
  /\ (forall h,
        isRunning s = true -> monitorTimeout s = Some h ->
        isArmed h (final (stop s)) = false).
Proof.
  split.
  { rewrite start_run. unfold getStatus.
    destruct (isRunning s) eqn:Hr; cbn [final snd isRunning];
      rewrite ?Hr; reflexivity. }
  split.
  { rewrite stop_run. unfold getStatus.
    destruct (isRunning s) eqn:Hr; cbn [final snd isRunning];
      rewrite ?Hr; reflexivity. }
  split.
  { rewrite (start_run (final (start s))).
    assert (Hr : isRunning (final (start s)) = true).
    { rewrite start_run. destruct (isRunning s) eqn:Hs; cbn; auto. }
    rewrite Hr. reflexivity. }
  split.
  { rewrite (stop_run (final (stop s))).
    assert (Hr : isRunning (final (stop s)) = false).
    { rewrite stop_run. destruct (isRunning s) eqn:Hs; cbn; auto. }
    rewrite Hr. reflexivity. }
  split.
  { rewrite start_run. destruct (isRunning s); reflexivity. }
  split.
  { intros Hr. rewrite stop_run, Hr. reflexivity. }
  intros h Hr Hm. rewrite stop_run, Hr.
  unfold isArmed. cbn [final snd timers]. rewrite Hm.
  apply cleared_not_armed.
Qed.

(** A cycle that ends while the service is stopped arms nothing. *)
Lemma cycleEnds_while_stopped (s : Service World) :
  isRunning s = false ->
  exists tr s',
    cycleEnds env s = (Normal tt, tr, s')
    /\ isRunning s' = false
    /\ timers s' = timers s
    /\ monitorTimeout s' = monitorTimeout s.
Proof.
  intros Hr. unfold cycleEnds.
  destruct (inflight s) as [|n].
  - do 2 eexists. split; [reflexivity|]. auto.
  - match goal with
    | |- context [runAndScheduleNext env ?s0] =>
        destruct (cycle_run env s0)
          as (tr1 & w1 & v & tr2 & w2 & _ & _ & _ & Hrun)
    end.
    rewrite Hrun. cbn [isRunning]. rewrite Hr.
    do 2 eexists. split; [reflexivity|]. cbn. auto.
Qed.

(** X12. A cycle that is in flight when [stop] is called is not
    interrupted, but when it reaches its scheduling step it arms no timer:
    after [stop] followed by the end of the cycle the service is stopped
    and its timers and stored handle are as [stop] left them. *)
Theorem X12_cycle_in_flight_at_stop_does_not_rearm (s : Service World) :
  let s' := final (turns env [TStop; TCycleEnds] s) in
  result (turns env [TStop; TCycleEnds] s) = Normal tt
  /\ isRunning s' = false
  /\ timers s' = timers (final (stop s))
  /\ monitorTimeout s' = monitorTimeout (final (stop s)).
Proof.
  assert (Hstopped : exists tr0 s0,
            stop s = (Normal tt, tr0, s0) /\ isRunning s0 = false).
  { rewrite stop_run. destruct (isRunning s) eqn:Hr;
      do 2 eexists; split; try reflexivity; auto. }
  destruct Hstopped as (tr0 & s0 & Hstop & Hr0).
  destruct (cycleEnds_while_stopped s0 Hr0)
    as (tr1 & s1 & Hend & Hr1 & Ht1 & Hm1).
  cbn [turns turn]. unfold bind.
  rewrite Hstop, Hend. cbn [ret result final fst snd]. auto.
Qed.

(** X13. In the steady state of a running service (one armed timer whose
    handle is stored, no cycle in flight), when the timer fires and the
    cycle it starts ends, exactly one new timer is armed, with a fresh
    handle that is stored and a delay between one minute and twenty
    minutes: the loop goes on, whatever the collaborators answered. *)
Theorem X13_fired_timer_is_replaced_by_one_timer
    (s : Service World) (h : nat) (ms : Z)
    (Hrunning : isRunning s = true)
    (Htimers : timers s = [(h, ms)])
    (Hidle : inflight s = 0%nat) :
  let s' := final (turns env [TFire h; TCycleEnds] s) in
  exists v,
    60000 <= v <= 1200000
    /\ result (turns env [TFire h; TCycleEnds] s) = Normal tt
    /\ timers s' = [(nextHandle s, v)]
    /\ monitorTimeout s' = Some (nextHandle s)
    /\ isRunning s' = true
    /\ inflight s' = 0%nat.
Proof.
  assert (Hrun :
    exists v tr w',
      60000 <= v <= 1200000
      /\ turns env [TFire h; TCycleEnds] s
         = (Normal tt, tr,
            {| world := w'; isRunning := true;
               monitorTimeout := Some (nextHandle s);
               timers := [(nextHandle s, v)];
               nextHandle := S (nextHandle s); inflight := 0%nat |})).
  { destruct (cycle_run env
                {| world := world s; isRunning := isRunning s;
                   monitorTimeout := monitorTimeout s; timers := [];
                   nextHandle := nextHandle s; inflight := 0%nat |})
      as (tr1 & w1 & v & tr2 & w2 & _ & _ & Hrange & Hrun).
    cbn [isRunning] in Hrun. rewrite Hrunning in Hrun.
    unfold armedWith in Hrun.
    cbn [isRunning timers monitorTimeout nextHandle inflight app] in Hrun.
    exists v. do 2 eexists.
    split; [unfold BASE_INTERVAL in Hrange; lia|].
    cbn [turns turn]. unfold bind, fire, isArmed.
    rewrite Htimers. cbn [existsb fst filter]. rewrite Nat.eqb_refl.
    cbn [orb negb]. unfold cycleEnds. cbn [inflight].
    rewrite Hidle, Hrunning.
    cbn [world isRunning timers monitorTimeout nextHandle].
    rewrite Hrun. cbn [ret]. reflexivity. }
  destruct Hrun as (v & tr & w' & Hrange & Hrun).
  intros s'. subst s'. rewrite Hrun.
  exists v. cbn [result final fst snd timers monitorTimeout isRunning
                   inflight].
  repeat split; try reflexivity; lia.
Qed.

End SchedulerDiscipline.

(* ================================================================== *)
(** * Eligibility *)

Section Eligibility.

Lemma split_occurs (sep c : ascii) (s tok : string) :
  In tok (split sep s) -> occurs c tok -> occurs c s.
Proof.
  revert tok.
  induction s as [|d rest IH]; intros tok Hin Hocc.
  - cbn in Hin. destruct Hin as [<-|[]]. exact Hocc.
  - cbn [split] in Hin. cbn [occurs].
    destruct (Ascii.eqb d sep).
    + destruct Hin as [<-|Hin]; [contradiction|].
      right. exact (IH tok Hin Hocc).
    + destruct (split sep rest) as [|w ws].
      * destruct Hin as [<-|[]]. cbn in Hocc. tauto.
      * destruct Hin as [<-|Hin].
        -- cbn [occurs] in Hocc. destruct Hocc as [Hc|Hocc]; [left; exact Hc|].
           right. exact (IH w (or_introl eq_refl) Hocc).
        -- right. exact (IH tok (or_intror Hin) Hocc).
Qed.

Lemma trim_falsy_all_space (s : string) (c : ascii) :
  trim_truthy s = false -> occurs c s -> is_space c = true.
Proof.
  induction s as [|d rest IH]; cbn [trim_truthy occurs]; [contradiction|].
  intros Htrim [->|Hocc].
  - apply orb_false_iff in Htrim. destruct Htrim as [Hd _].
    apply negb_false_iff in Hd. exact Hd.
  - apply orb_false_iff in Htrim. destruct Htrim as [_ Hrest].
    exact (IH Hrest Hocc).
Qed.

Lemma includes_In (l : list string) (x : string) :
  includes l x = true <-> In x l.
Proof.
  unfold includes. rewrite existsb_exists. split.
  - intros (y & Hin & Heq). apply String.eqb_eq in Heq. subst. exact Hin.
  - intros Hin. exists x. split; [exact Hin|apply String.eqb_refl].
Qed.

(** X14. An account counts as an OAuth account exactly when its scopes
    text, cut at single spaces, contains both [user:profile] and
    [user:inference]: other scopes and the order do not matter, an account
    without scopes text is not one, and the test that the trimmed text is
    non-empty never changes the outcome. *)
Theorem X14_isOAuth_iff_both_scopes_listed (account : Account) :
  isOAuth account = true
  <-> exists s,
        scopes account = Some s
        /\ In "user:profile" (split " "%char s)
        /\ In "user:inference" (split " "%char s).
Proof.
  unfold isOAuth. split.
  - destruct (scopes account) as [s|]; [|discriminate].
    destruct (trim_truthy s); [|discriminate].
    intros H. apply andb_true_iff in H. destruct H as [Hp Hi].
    exists s. split; [reflexivity|].
    split; apply includes_In; assumption.
  - intros (s & Hs & Hp & Hi). rewrite Hs.
    destruct (trim_truthy s) eqn:Htrim.
    + apply andb_true_iff. split; apply includes_In; assumption.
    + assert (Hu : occurs "u"%char "user:profile") by (cbn; tauto).
      pose proof (@trim_falsy_all_space s "u"%char Htrim
                    (@split_occurs " "%char "u"%char s "user:profile"
                       Hp Hu)) as Hspace.
      discriminate.
Qed.

End Eligibility.

(* ================================================================== *)
(** * More concrete runs *)

Section MoreConcreteRuns.
Import Demo Demo2.

(** The check on a window that resets six minutes ahead logs the line. *)
Lemma X2_witness :
  resets_at closingWindow = Some (Instant 1360000)
  /\ 1360000 - Date_now envProbeOk w0 < 660000
  /\ exists m pct quota,
       m <= 10
       /\ checkAndResetFiveHourWindow envProbeOk (oauth "acct-1")
            closingWindow w0
          = (Normal false,
             [ELog LInfo (MWindowExpires "acct-1" m pct quota)], w0).
Proof.
  assert (Hnear : 1360000 - Date_now envProbeOk w0 < 660000)
    by (vm_compute; reflexivity).
  split; [reflexivity|]. split; [exact Hnear|].
  exact (proj1 (@X2_reset_line_iff_under_eleven_minutes World envProbeOk
                  (oauth "acct-1") closingWindow w0 1360000 eq_refl)
           Hnear).
Defined.


(** The fetch made in a pass over one OAuth account is made for it. *)
Lemma X4_witness :
  In (ECall (CFetchOAuthUsage "acct-1"))
     (events (updateLoop envProbeOk [oauth "acct-1"] zeroCounters w0))
  /\ exists a,
       In a [oauth "acct-1"] /\ eligible a = true
       /\ callAccount (ECall (CFetchOAuthUsage "acct-1")) = Some (id a).
Proof.
  assert (Hin : In (ECall (CFetchOAuthUsage "acct-1"))
                   (events (updateLoop envProbeOk [oauth "acct-1"]
                              zeroCounters w0)))
    by (vm_compute; tauto).
  split; [exact Hin|].
  exact (@X4_pass_calls_only_for_eligible_accounts World envProbeOk
           [oauth "acct-1"] zeroCounters w0
           (ECall (CFetchOAuthUsage "acct-1")) Hin eq_refl).
Defined.

(** The counts of the pass over three accounts whose second fetch throws. *)
Lemma X5_witness :
  getAllClaudeAccounts envSecondThrows w0 = (Normal threeAccounts, tick w0)
  /\ exists c tr w',
       updateAllAccountsUsage envSecondThrows w0
       = (Normal tt,
          ELog LInfo MUpdateStart :: ECall CGetAllClaudeAccounts :: tr
            ++ [ELog LInfo
                  (MUpdateCompleted (successCount c) (skipCount c)
                     (initCount c) (failureCount c)
                     (Z.of_nat (List.length threeAccounts)))],
          w')
       /\ 0 <= initCount c <= successCount c
       /\ 0 <= failureCount c
       /\ 0 <= skipCount c
       /\ successCount c + failureCount c
          = Z.of_nat (List.length (filter eligible threeAccounts)).
Proof.
  split; [reflexivity|].
  exact (@X5_completion_counts_are_consistent World envSecondThrows
           w0 (tick w0) threeAccounts eq_refl).
Defined.

(** The planner when the store cannot be read for the second account. *)
Lemma X8_witness :
  (forall i w, i <> "acct-2" ->
     exists w',
       getClaudeUsageSnapshot envReadThrows i w
       = (Normal (Some nearSnapshot), w'))
  /\ (forall w, exists e w',
        getClaudeUsageSnapshot envReadThrows "acct-2" w = (Throw e, w'))
  /\ exists e tr w',
       calculateNextInterval envReadThrows w0
       = (Normal BASE_INTERVAL, tr ++ [ELog LError (MCalcError e)], w').
Proof.
  assert (Hgood :
    forall i w, i <> "acct-2" ->
      exists w',
        getClaudeUsageSnapshot envReadThrows i w
        = (Normal (Some nearSnapshot), w')).
  { intros i w Hne. exists (tick w). cbn.
    apply String.eqb_neq in Hne. rewrite Hne. reflexivity. }
  assert (Hbad :
    forall w, exists e w',
      getClaudeUsageSnapshot envReadThrows "acct-2" w = (Throw e, w')).
  { intros w. exists "redis: timeout", (tick w). reflexivity. }
  split; [exact Hgood|]. split; [exact Hbad|].
  refine (@X8_planner_base_interval_when_a_read_throws World envReadThrows
            (fun _ => Some nearSnapshot) "acct-2" w0 (tick w0)
            threeAccounts (oauth "acct-2") eq_refl Hgood Hbad _
            eq_refl eq_refl).
  right. left. reflexivity.
Defined.

(** The planner over two accounts listed in either order. *)
Lemma X9_witness :
  Permutation [oauth "acct-1"; oauth "acct-2"]
              [oauth "acct-2"; oauth "acct-1"]
  /\ result (calculateNextInterval envTwoOrders w0)
     = result (calculateNextInterval envTwoOrders (tick w0)).
Proof.
  assert (Hperm : Permutation [oauth "acct-1"; oauth "acct-2"]
                              [oauth "acct-2"; oauth "acct-1"])
    by apply perm_swap.
  split; [exact Hperm|].
  refine (@X9_planner_result_independent_of_listing_order World
            envTwoOrders storedByAccount _
            w0 (tick w0) (tick w0) (tick (tick w0))
            [oauth "acct-1"; oauth "acct-2"]
            [oauth "acct-2"; oauth "acct-1"]
            eq_refl eq_refl Hperm eq_refl).
  intros i w. exists (tick w). reflexivity.
Defined.

(** A service that was started once is reached without a restart. *)
Lemma X10_witness :
  SafeRun envProbeOk (final (turn envProbeOk TStart (newService w0)))
  /\ timerInvariant (final (turn envProbeOk TStart (newService w0))).
Proof.
  assert (Hsafe :
    SafeRun envProbeOk (final (turn envProbeOk TStart (newService w0)))).
  { apply SafeTurn; [apply SafeNew|]. intros _ _. reflexivity. }
  split; [exact Hsafe|].
  exact (proj1 (@X10_single_timer_without_restart_in_flight World
                  envProbeOk _ Hsafe)).
Defined.

(** The steady state after its timer fired and the cycle ended. *)
Lemma X13_witness :
  exists v,
    60000 <= v <= 1200000
    /\ result (turns envProbeOk [TFire 0%nat; TCycleEnds] steady) = Normal tt
    /\ timers (final (turns envProbeOk [TFire 0%nat; TCycleEnds] steady))
       = [(nextHandle steady, v)]
    /\ monitorTimeout
         (final (turns envProbeOk [TFire 0%nat; TCycleEnds] steady))
       = Some (nextHandle steady)
    /\ isRunning (final (turns envProbeOk [TFire 0%nat; TCycleEnds] steady))
       = true
    /\ inflight (final (turns envProbeOk [TFire 0%nat; TCycleEnds] steady))
       = 0%nat.
Proof.
  exact (@X13_fired_timer_is_replaced_by_one_timer World envProbeOk
           steady 0%nat 120000 eq_refl eq_refl eq_refl).
Defined.

End MoreConcreteRuns.
